(** * train.py: masking, validation loss and the training loop of BERT4Rec

    A shallow embedding of [src/train.py] and the properties its
    specification states about it.

    Data.  Python integers are [Z]; an item sequence is a [list Z]; a
    two-dimensional [torch.LongTensor] is the list of its rows.  Python
    floats are binary64 values, modelled by Rocq's primitive [float] with the
    IEEE operations the interpreter uses.

    Effects.  The module has two pieces of process-wide mutable state that
    survive an exception: the [random] generator and everything written to
    the outside (checkpoints, the history file, console lines).  Both live in
    a [World]; a computation is a function from a world to an outcome and the
    world it leaves, so that what was written before a [raise] stays
    written.  Whether the file system takes a call ([os.makedirs],
    [torch.save], writing the history) is not decided by the module: it is
    a parameter, and a call it refuses raises. *)

From Stdlib Require Import ZArith Bool Lia String Ascii Floats Permutation List.
Import ListNotations.

#[local] Set Warnings "-inexact-float".
#[local] Open Scope Z_scope.

(** ** Python built-ins used by the module *)

Module Py.

(** The exceptions the modelled code can raise. *)
Inductive exn : Type :=
| ZeroDivisionError
| ValueError
| FileNotFoundError
| TypeError
| UnboundLocalError
| RuntimeError
| OSError.

(** The outcome of an expression: a value, or a raised exception. *)
Inductive res (A : Type) : Type :=
| Ok (a : A)
| Raise (e : exn).
Arguments Ok {A} a.
Arguments Raise {A} e.

Definition len {A} (l : list A) : Z := Z.of_nat (length l).

(** A slice bound [i] on a sequence of length [n], as [PySlice_AdjustIndices]
    clips it (step 1): negative bounds count from the end. *)
Definition norm_index (n i : Z) : Z :=
  if i <? 0 then Z.max (n + i) 0 else Z.min i n.

(** [l[lo:]] *)
Definition slice_from {A} (l : list A) (lo : Z) : list A :=
  skipn (Z.to_nat (norm_index (len l) lo)) l.

(** [l[lo:hi]] *)
Definition slice {A} (l : list A) (lo hi : Z) : list A :=
  let a := norm_index (len l) lo in
  let b := norm_index (len l) hi in
  firstn (Z.to_nat (b - a)) (skipn (Z.to_nat a) l).

(** [[x] * n]: the empty list when [n <= 0]. *)
Definition list_mul {A} (x : A) (n : Z) : list A := repeat x (Z.to_nat n).

(** The number of elements of [range(start, stop, step)] for [step <> 0]. *)
Definition range_count (start stop step : Z) : Z :=
  if 0 <? step then
    if start <? stop then (stop - start - 1) / step + 1 else 0
  else
    if stop <? start then (start - stop - 1) / (- step) + 1 else 0.

(** [range(start, stop, step)], which raises [ValueError] on a zero step. *)
Definition range (start stop step : Z) : res (list Z) :=
  if step =? 0 then Raise ValueError
  else Ok (map (fun k => start + Z.of_nat k * step)
               (seq 0 (Z.to_nat (range_count start stop step)))).

(** [x > y] on floats; IEEE [>] is [<] with the operands swapped (both are
    false when an operand is NaN). *)
Definition gtb (x y : float) : bool := PrimFloat.ltb y x.

(** The float a Python integer converts to in a mixed operation. *)
Definition float_of_int (n : Z) : float :=
  if n <? 0 then PrimFloat.opp (PrimFloat.of_uint63 (Uint63.of_Z (- n)))
  else PrimFloat.of_uint63 (Uint63.of_Z n).

(** [x / n] for a number [x] and an integer [n]: true division, which raises
    on a zero divisor whether [x] is the integer [0] or a float. *)
Definition truediv (x : float) (n : Z) : res float :=
  if n =? 0 then Raise ZeroDivisionError
  else Ok (PrimFloat.div x (float_of_int n)).

(** Truthiness of an optional string: [None] and [""] are false. *)
Definition truthy (s : option string) : bool :=
  match s with
  | None => false
  | Some EmptyString => false
  | Some (String _ _) => true
  end.

Definition starts_with_sep (s : string) : bool :=
  match s with
  | String c _ => Ascii.eqb c "/"%char
  | EmptyString => false
  end.

Fixpoint ends_with_sep (s : string) : bool :=
  match s with
  | EmptyString => false
  | String c EmptyString => Ascii.eqb c "/"%char
  | String _ rest => ends_with_sep rest
  end.

(** [os.path.join(a, b)] on POSIX paths. *)
Definition path_join (a b : string) : string :=
  if starts_with_sep b then b
  else
    match a with
    | EmptyString => b
    | _ => if ends_with_sep a then (a ++ b)%string
           else (a ++ "/" ++ b)%string
    end.

End Py.
Import Py.

(** ** Padding *)

(** [pad_sequence(seq, max_len)], lines 18-21. *)
Definition pad_sequence (seq : list Z) (max_len : Z) : list Z :=
  if len seq >=? max_len then slice_from seq (- max_len)
  else list_mul 0 (max_len - len seq) ++ seq.

(** The last [n] elements of a list, read from its end. *)
Definition last_elems {A} (n : nat) (l : list A) : list A :=
  rev (firstn n (rev l)).

(** ** History records *)

(** One [log_entry] of [train_model], lines 113-120. *)
Record log_entry : Type := mk_log_entry {
  epoch : Z;
  train_loss : float;
  val_loss : float;
  val_ndcg : float;
  val_recall : float;
  lr : float
}.

(** A draw of [random.random()] lies in [[0, 1)]. *)
Definition unit_interval (r : float) : Prop :=
  PrimFloat.leb 0 r = true /\ PrimFloat.ltb r 1 = true.

(** ** Loading the data *)

(** The directory tree as the loader sees it: the sequences unpickled from
    the file at a path, or nothing when no file is there. *)
Definition file_system : Type := string -> option (list (list Z)).

(** [with open(path, 'rb') as f: pickle.load(f)] *)
Definition open_load (fs : file_system) (path : string)
  : res (list (list Z)) :=
  match fs path with
  | Some seqs => Ok seqs
  | None => Raise FileNotFoundError
  end.

(** [max(s)] over a collection of integers: [ValueError] when it is empty. *)
Definition py_max (s : list Z) : res Z :=
  match s with
  | [] => Raise ValueError
  | x :: xs => Ok (fold_left Z.max xs x)
  end.

(** [set(...)]: the elements without repetition. *)
Definition py_set (l : list Z) : list Z := nodup Z.eq_dec l.

Definition and_then {A B} (r : res A) (k : A -> res B) : res B :=
  match r with
  | Ok a => k a
  | Raise e => Raise e
  end.

(** [load_processed_data(processed_dir)], lines 144-155. *)
Definition load_processed_data (fs : file_system) (processed_dir : string)
  : res (list (list Z) * list (list Z) * list (list Z) * Z) :=
  and_then (open_load fs (path_join processed_dir "train_seqs.pkl"))
    (fun train_seqs =>
  and_then (open_load fs (path_join processed_dir "val_seqs.pkl"))
    (fun val_seqs =>
  and_then (open_load fs (path_join processed_dir "test_seqs.pkl"))
    (fun test_seqs =>
  let all_items :=
    py_set (filter (fun item => negb (item =? 0))
                   (concat (train_seqs ++ val_seqs ++ test_seqs))) in
  and_then (py_max all_items)
    (fun num_items =>
  Ok (train_seqs, val_seqs, test_seqs, num_items))))).

(** The specification's [DataError]: the failures of the loader, which
    Python reports as [FileNotFoundError] (a file is missing) and
    [ValueError] (no item to take a maximum over). *)
Definition DataError (e : exn) : Prop :=
  e = FileNotFoundError \/ e = ValueError.

(** The sum of a list of floats, accumulated from the left as
    [total += x] does, starting from [0]. *)
Definition fsum (xs : list float) : float :=
  fold_left PrimFloat.add xs 0%float.

(** ** Reading a masked batch position by position *)

(** The entry of row [i], column [j]. *)
Definition cell (t : list (list Z)) (i j : nat) : option Z :=
  match nth_error t i with
  | Some row => nth_error row j
  | None => None
  end.

(** What masking may do to one position holding [orig]. *)
Definition position_ok (MASK_ID orig masked label : Z) : Prop :=
  (masked = MASK_ID /\ label = orig /\ orig <> 0) \/
  (masked = orig /\ label = 0).

Inductive row_ok (MASK_ID : Z) : list Z -> list Z -> list Z -> Prop :=
| row_ok_nil : row_ok MASK_ID [] [] []
| row_ok_cons x m l xs ms ls :
    position_ok MASK_ID x m l ->
    row_ok MASK_ID xs ms ls ->
    row_ok MASK_ID (x :: xs) (m :: ms) (l :: ls).

Inductive rows_ok (MASK_ID : Z)
  : list (list Z) -> list (list Z) -> list (list Z) -> Prop :=
| rows_ok_nil : rows_ok MASK_ID [] [] []
| rows_ok_cons x m l xs ms ls :
    row_ok MASK_ID x m l ->
    rows_ok MASK_ID xs ms ls ->
    rows_ok MASK_ID (x :: xs) (m :: ms) (l :: ls).

(** The batch after padding, before masking. *)
Definition padded_batch (seqs : list (list Z)) (seq_len : Z)
  : list (list Z) :=
  map (fun seq => pad_sequence seq seq_len) seqs.

(** A row of labels that are all [0], and a row with [MASK_ID] at every
    non-zero position. *)
Definition no_label (row : list Z) : list Z := map (fun _ => 0) row.

Definition all_masked (MASK_ID : Z) (row : list Z) : list Z :=
  map (fun item => if item =? 0 then 0 else MASK_ID) row.

(** ** The world and the locals of a run *)

(** What a run leaves outside the process; [Model] is the type of what
    [torch.save] is given. *)
Inductive event (Model : Type) : Type :=
| EvEpoch (e : Z)
    (* the progress bar "Epoch e", line 89 *)
| EvSave (path : string) (state_dict : Model)
    (* torch.save, line 131 *)
| EvEarlyStop
    (* the line printed at 135 *)
| EvDump (path : string) (history : list log_entry).
    (* json.dump, lines 139-140 *)
Arguments EvEpoch {Model} e.
Arguments EvSave {Model} path state_dict.
Arguments EvEarlyStop {Model}.
Arguments EvDump {Model} path history.

(** The state that outlives an exception: the [random] generator and what
    has been written. *)
Record World (Rng Model : Type) : Type := mk_world {
  rng : Rng;
  out : list (event Model)
}.
Arguments mk_world {Rng Model} rng out.
Arguments rng {Rng Model} w.
Arguments out {Rng Model} w.

(** The calls that touch the file system while training. *)
Inductive io_op : Type :=
| Makedirs (dir : string)
    (* os.makedirs(dir, exist_ok=True), lines 130 and 138 *)
| TorchSave (path : string)
    (* torch.save(..., path), line 131 *)
| WriteJson (path : string).
    (* open(path, 'w') and json.dump, lines 139-140 *)

(** The variables of [train_model] that live across epochs. *)
Record locals (Model : Type) : Type := mk_locals {
  model : Model;
  train_data : list (list Z);
  history : list log_entry;
  best_ndcg : float;
  patience_counter : Z;
  current_lr : option float
}.
Arguments mk_locals {Model} model train_data history best_ndcg
  patience_counter current_lr.
Arguments model {Model} l.
Arguments train_data {Model} l.
Arguments history {Model} l.
Arguments best_ndcg {Model} l.
Arguments patience_counter {Model} l.
Arguments current_lr {Model} l.

Definition is_save {Model} (ev : event Model) : bool :=
  match ev with
  | EvSave _ _ => true
  | _ => false
  end.

(** The checkpoint writes among the events, oldest first. *)
Definition checkpoints {Model} (evs : list (event Model))
  : list (event Model) :=
  filter is_save evs.

(** The epochs whose progress bar was shown, oldest first. *)
Definition epochs_run {Model} (evs : list (event Model)) : list Z :=
  flat_map (fun ev => match ev with EvEpoch e => [e] | _ => [] end) evs.

(** What an epoch may write: its progress bar, the early-stop line, and a
    checkpoint only under a [model_name] that is true as a condition. *)
Definition epoch_event {Model} (model_name : option string)
  (ev : event Model) : Prop :=
  match ev with
  | EvEpoch _ => True
  | EvEarlyStop => True
  | EvSave _ _ => truthy model_name = true
  | EvDump _ _ => False
  end.

(** The checkpoint write of an epoch that improved, as a list of events. *)
Definition checkpoint_events {Model} (model_name : option string)
  (m : Model) : list (event Model) :=
  if truthy model_name then
    match model_name with
    | Some name => [EvSave (path_join "models" name) m]
    | None => []
    end
  else [].

(** The test of line 126, [val_ndcg > best_ndcg + 1e-4]. *)
Definition improved (val best : float) : bool :=
  gtb val (PrimFloat.add best 1e-4%float).

(** The stall counter after each epoch, replayed from the [val_ndcg] values
    of the epochs: an improvement on the best value so far sets it to [0],
    anything else adds [1]. *)
Fixpoint stall_counters (best : float) (counter : Z) (vals : list float)
  : list Z :=
  match vals with
  | [] => []
  | v :: rest =>
      if improved v best then 0 :: stall_counters v 0 rest
      else (counter + 1) :: stall_counters best (counter + 1) rest
  end.

(** The stall counters of a run, from its history ([best_ndcg = 0.0] and
    [patience_counter = 0] at the start, lines 81-82). *)
Definition history_counters (hist : list log_entry) : list Z :=
  stall_counters 0%float 0 (map val_ndcg hist).

(** ** A small instance of what the module takes from elsewhere

    A random source that always draws [0.5] and shuffles by reversing, a
    model whose state is the number of optimizer steps taken, constant
    losses and metrics, batches of two and a patience of two.  The examples
    at the end of the file run the training loop on it. *)

Module Toy.

Definition Rng : Type := nat.

Definition random (g : Rng) : float * Rng := (0.5%float, S g).

Definition shuffle (g : Rng) (l : list (list Z)) : list (list Z) * Rng :=
  (rev l, S g).

Definition Model : Type := Z.

Definition BATCH_SIZE : Z := 2.

Definition PATIENCE : Z := 2.

Definition eval_loss (m : Model) (masked_inputs labels : list (list Z))
  : float := 1.5%float.

Definition train_step (m : Model) (masked_inputs labels : list (list Z))
  : float * float * Model := (2%float, 0.125%float, m + 1).

Definition evaluate_model (m : Model) (val_data : list (list Z))
  (num_items : Z) (g : Rng) : float * float * Rng :=
  (0.5%float, 0.25%float, g).

Definition scheduler_step (m : Model) (val_ndcg : float) : Model := m.

(** A file system on which every call succeeds. *)
Definition io_error (op : io_op) (written : list (event Model))
  : option exn := None.

(** A file system with no room for a second file. *)
Definition io_error_full (op : io_op) (written : list (event Model))
  : option exn :=
  match op with
  | Makedirs _ => None
  | _ => if existsb is_save written then Some OSError else None
  end.

Definition train_seqs : list (list Z) := [[1; 2; 3]; [4; 5]; [6]; [2; 4]].

Definition val_seqs : list (list Z) := [[1; 2]; [3; 4; 5]].

Definition test_seqs : list (list Z) := [[6; 1]].

(** A directory ["data"] holding the three files. *)
Definition fs : file_system :=
  fun path =>
    if String.eqb path "data/train_seqs.pkl" then Some train_seqs
    else if String.eqb path "data/val_seqs.pkl" then Some val_seqs
    else if String.eqb path "data/test_seqs.pkl" then Some test_seqs
    else None.

(** The same directory with three files of empty sequences. *)
Definition fs_empty : file_system :=
  fun path =>
    if String.eqb path "data/train_seqs.pkl" then Some [[]; []]
    else if String.eqb path "data/val_seqs.pkl" then Some [[]]
    else if String.eqb path "data/test_seqs.pkl" then Some []
    else None.

(** The configuration of the script and the model it builds. *)
Definition MASK_PROB : float := 0.5%float.

Definition EPOCHS : Z := 5.

Definition PROCESSED_DIR : string := "data".

Definition BERT4Rec (num_items : Z) : Model := 0.

(** A metric evaluator whose NDCG is not a number. *)
Definition evaluate_model_nan (m : Model) (val_data : list (list Z))
  (num_items : Z) (g : Rng) : float * float * Rng :=
  (PrimFloat.nan, 0.25%float, g).

End Toy.

(** The world and the locals at the start of a run of the instance. *)
Definition toy_w0 : World Toy.Rng Toy.Model := mk_world 0%nat [].

Definition toy_s0 : locals Toy.Model :=
  mk_locals 0 Toy.train_seqs [] 0%float 0 None.

(** The record every epoch of the instance appends, but for its index. *)
Definition toy_entry (e : Z) : log_entry :=
  mk_log_entry e 1%float 0.75%float 0.5%float 0.25%float 0.125%float.

(** The locals after the first epoch, which improves on [best_ndcg = 0]. *)
Definition toy_s1 : locals Toy.Model :=
  mk_locals 2 (rev Toy.train_seqs) [toy_entry 1] 0.5%float 0
            (Some 0.125%float).

(** The world after the first epoch of a run that names its checkpoint. *)
Definition toy_w1_named : World Toy.Rng Toy.Model :=
  mk_world 14%nat [EvEpoch 1; EvSave "models/best.pt" 2].

(** A run of the instance with a budget of five epochs: the first epoch
    improves, the next two do not, and the third is the last. *)
Definition toy_history : list log_entry :=
  [toy_entry 1; toy_entry 2; toy_entry 3].

Definition toy_events : list (event Toy.Model) :=
  [EvEpoch 1; EvSave "models/best.pt" 2; EvEpoch 2; EvEpoch 3; EvEarlyStop;
   EvDump "results/config_1.json" toy_history].

(** The record and the locals after a first epoch whose NDCG is NaN. *)
Definition toy_nan_entry : log_entry :=
  mk_log_entry 1 1%float 0.75%float PrimFloat.nan 0.25%float 0.125%float.

Definition toy_s1_nan : locals Toy.Model :=
  mk_locals 2 (rev Toy.train_seqs) [toy_nan_entry] 0%float 1
            (Some 0.125%float).

(** The locals after two epochs of the instance. *)
Definition toy_s2 : locals Toy.Model :=
  mk_locals 4 Toy.train_seqs [toy_entry 1; toy_entry 2] 0.5%float 1
            (Some 0.125%float).

(** The locals and what has been written when the epoch loop of that run is
    left. *)
Definition toy_s3 : locals Toy.Model :=
  mk_locals 6 (rev Toy.train_seqs) toy_history 0.5%float 2
            (Some 0.125%float).

Definition toy_loop_events : list (event Toy.Model) :=
  [EvEpoch 1; EvSave "models/best.pt" 2; EvEpoch 2; EvEpoch 3; EvEarlyStop].

(** The same run under a patience of [0]: the second epoch is the last. *)
Definition toy_history_impatient : list log_entry :=
  [toy_entry 1; toy_entry 2].

Definition toy_events_impatient : list (event Toy.Model) :=
  [EvEpoch 1; EvSave "models/best.pt" 2; EvEpoch 2; EvEarlyStop;
   EvDump "results/config_1.json" toy_history_impatient].

(** ** Ids that fit a tensor *)

(** The integers an element of a [torch.LongTensor] can hold. *)
Definition int64 (x : Z) : bool := (- 2 ^ 63 <=? x) && (x <? 2 ^ 63).

(** Every id that masking a batch of [data] under [num_items] can put into
    a tensor fits: the items, and [MASK_ID]. *)
Definition ids_fit (num_items : Z) (data : list (list Z)) : bool :=
  int64 (num_items + 1) && forallb (forallb int64) data.

(** ** Counting what masking draws *)

(** The number of non-zero items of a row: the positions for which line 31
    calls [random.random()]. *)
Definition nonzero_count (row : list Z) : nat :=
  length (filter (fun item => negb (item =? 0)) row).

Section Train.

#[local] Set Default Proof Using "Type".

(** *** What the module takes from elsewhere

    [utils.config], [model.model], [utils.evaluate], [torch] and Python's
    [random] are not part of the file; each is a parameter here. *)

(** The state of the [random] module, [random.random()] and
    [random.shuffle(x)] (the order it leaves [x] in). *)
Variable Rng : Type.
Variable random : Rng -> float * Rng.
Variable shuffle : Rng -> list (list Z) -> list (list Z) * Rng.

Hypothesis random_range : forall g, unit_interval (fst (random g)).
Hypothesis shuffle_perm : forall g l, Permutation l (fst (shuffle g l)).

(** Everything [torch] mutates: parameters, optimizer and scheduler. *)
Variable Model : Type.

(** [utils.config]. *)
Variable BATCH_SIZE : Z.
Variable PATIENCE : Z.

(** A computation: from a world to an outcome and the world left behind. *)
Definition M (A : Type) : Type :=
  World Rng Model -> res A * World Rng Model.

Definition ret {A} (a : A) : M A := fun w => (Ok a, w).

Definition raise {A} (e : exn) : M A := fun w => (Raise e, w).

Definition bind {A B} (c : M A) (k : A -> M B) : M B :=
  fun w =>
    match c w with
    | (Ok a, w') => k a w'
    | (Raise e, w') => (Raise e, w')
    end.

Definition lift {A} (r : res A) : M A := fun w => (r, w).

Definition emit (e : event Model) : M unit :=
  fun w => (Ok tt, mk_world (rng w) (out w ++ [e])).

Definition draw : M float :=
  fun w => let (r, g) := random (rng w) in (Ok r, mk_world g (out w)).

Notation "x <- c ;; k" := (bind c (fun x => k))
  (at level 61, c at next level, right associativity).
Notation "' p <- c ;; k" := (bind c (fun x => match x with p => k end))
  (at level 61, p pattern, c at next level, right associativity).
Notation "c ;; k" := (bind c (fun _ => k))
  (at level 61, right associativity).

(** *** Masking *)

(** The inner loop of [mask_items], lines 29-36, over one padded row.  The
    [and] of line 31 draws a random number only for a non-zero item. *)
Fixpoint mask_row (MASK_ID : Z) (mask_prob : float) (padded : list Z)
  : M (list Z * list Z) :=
  match padded with
  | [] => ret ([], [])
  | item :: rest =>
      hit <- (if item =? 0 then ret false
              else r <- draw ;; ret (PrimFloat.ltb r mask_prob)) ;;
      ' (masked, label) <- mask_row MASK_ID mask_prob rest ;;
      ret (if hit : bool
           then (MASK_ID :: masked, item :: label)
           else (item :: masked, 0 :: label))
  end.

(** The outer loop, lines 27-38. *)
Fixpoint mask_rows (MASK_ID : Z) (mask_prob : float) (seq_len : Z)
  (seqs : list (list Z)) : M (list (list Z) * list (list Z)) :=
  match seqs with
  | [] => ret ([], [])
  | seq :: rest =>
      ' (masked, label) <-
        mask_row MASK_ID mask_prob (pad_sequence seq seq_len) ;;
      ' (masked_seqs, labels) <- mask_rows MASK_ID mask_prob seq_len rest ;;
      ret (masked :: masked_seqs, label :: labels)
  end.

(** The row lists [torch.LongTensor] takes.  The sizes of the tensor are read
    off the first row.  When that row is empty the tensor has no element and
    the other rows are not looked at; otherwise every row must have the first
    row's length. *)
Definition rectangular (rows : list (list Z)) : bool :=
  match rows with
  | [] => true
  | [] :: _ => true
  | r :: rs => forallb (fun r' => Nat.eqb (length r') (length r)) rs
  end.

(** The rows of the tensor built from rows that [rectangular] accepts: under
    an empty first row every row of the tensor is empty. *)
Definition tensor_rows (rows : list (list Z)) : list (list Z) :=
  match rows with
  | [] :: _ => map (fun _ => []) rows
  | _ => rows
  end.

(** [torch.LongTensor(rows)]: the tensor of the rows, or [ValueError] when
    their lengths do not fit.  (The 64-bit width of the elements is not
    modelled: the item ids and [MASK_ID] are taken to fit, as the ids of a
    data set do.) *)
Definition LongTensor (rows : list (list Z)) : M (list (list Z)) :=
  if rectangular rows then ret (tensor_rows rows) else raise ValueError.

(** [mask_items(seqs, num_items, mask_prob, seq_len)], lines 23-40. *)
Definition mask_items (seqs : list (list Z)) (num_items : Z)
  (mask_prob : float) (seq_len : Z) : M (list (list Z) * list (list Z)) :=
  let MASK_ID := num_items + 1 in
  ' (masked_seqs, labels) <- mask_rows MASK_ID mask_prob seq_len seqs ;;
  masked_inputs <- LongTensor masked_seqs ;;
  labels <- LongTensor labels ;;
  ret (masked_inputs, labels).


(** *** Validation loss *)

(** Lines 50-57 for one batch: the forward pass in evaluation mode and the
    loss value [criterion(logits, labels).item()]. *)
Variable eval_loss : Model -> list (list Z) -> list (list Z) -> float.

(** The loop of lines 47-57 over the batch offsets [i]. *)
Fixpoint val_batches (model : Model) (val_data : list (list Z))
  (num_items : Z) (mask_prob : float) (seq_len : Z)
  (starts : list Z) (total_loss : float) : M float :=
  match starts with
  | [] => ret total_loss
  | i :: rest =>
      let batch := slice val_data i (i + BATCH_SIZE) in
      ' (masked_inputs, labels) <-
        mask_items batch num_items mask_prob seq_len ;;
      let loss := eval_loss model masked_inputs labels in
      val_batches model val_data num_items mask_prob seq_len rest
                  (PrimFloat.add total_loss loss)
  end.

(** [evaluate_val_loss(model, val_data, criterion, num_items, device,
    mask_prob, seq_len)], lines 42-59; [criterion] and [device] are inside
    [eval_loss].  [total_loss] starts as the integer [0], which adds and
    divides as the float [0.0] does. *)
Definition evaluate_val_loss (model : Model) (val_data : list (list Z))
  (num_items : Z) (mask_prob : float) (seq_len : Z) : M float :=
  starts <- lift (range 0 (len val_data) BATCH_SIZE) ;;
  total_loss <-
    val_batches model val_data num_items mask_prob seq_len starts 0%float ;;
  lift (truediv total_loss (len val_data)).

(** The loss values of the batches in the order the loop meets them, for
    comparison with the running total the loop keeps. *)
Fixpoint val_batch_losses (model : Model) (val_data : list (list Z))
  (num_items : Z) (mask_prob : float) (seq_len : Z)
  (starts : list Z) : M (list float) :=
  match starts with
  | [] => ret []
  | i :: rest =>
      let batch := slice val_data i (i + BATCH_SIZE) in
      ' (masked_inputs, labels) <-
        mask_items batch num_items mask_prob seq_len ;;
      losses <-
        val_batch_losses model val_data num_items mask_prob seq_len rest ;;
      ret (eval_loss model masked_inputs labels :: losses)
  end.

(** The batch offsets [range(0, len(data), BATCH_SIZE)]. *)
Definition batch_offsets (data : list (list Z)) : list Z :=
  match range 0 (len data) BATCH_SIZE with
  | Ok starts => starts
  | Raise _ => []
  end.

(** *** Training *)

(** Lines 93-103 for one batch: forward pass, loss, backward pass and
    optimizer step; the loss value, the learning rate read afterwards and
    the state the step leaves. *)
Variable train_step :
  Model -> list (list Z) -> list (list Z) -> float * float * Model.

(** [evaluate_model(model, val_data, num_items, device, k_values=[10])]:
    the entries [['ndcg'][10]] and [['recall'][10]] of its result, and the
    state it leaves the [random] generator in. *)
Variable evaluate_model :
  Model -> list (list Z) -> Z -> Rng -> float * float * Rng.

(** [scheduler.step(val_ndcg)] *)
Variable scheduler_step : Model -> float -> Model.

(** The loop of lines 90-104.  [current_lr] is a local of [train_model]
    that stays unbound until a batch has run. *)
Fixpoint train_batches (train_data : list (list Z)) (num_items : Z)
  (mask_prob : float) (seq_len : Z) (starts : list Z)
  (model : Model) (train_loss : float) (current_lr : option float)
  : M (Model * float * option float) :=
  match starts with
  | [] => ret (model, train_loss, current_lr)
  | i :: rest =>
      let batch := slice train_data i (i + BATCH_SIZE) in
      ' (masked_inputs, labels) <-
        mask_items batch num_items mask_prob seq_len ;;
      let '(loss, new_lr, model') := train_step model masked_inputs labels in
      train_batches train_data num_items mask_prob seq_len rest
                    model' (PrimFloat.add train_loss loss) (Some new_lr)
  end.

(** The training losses of the batches of one epoch, in order. *)
Fixpoint train_batch_losses (train_data : list (list Z)) (num_items : Z)
  (mask_prob : float) (seq_len : Z) (starts : list Z)
  (model : Model) : M (list float) :=
  match starts with
  | [] => ret []
  | i :: rest =>
      let batch := slice train_data i (i + BATCH_SIZE) in
      ' (masked_inputs, labels) <-
        mask_items batch num_items mask_prob seq_len ;;
      let '(loss, _, model') := train_step model masked_inputs labels in
      losses <-
        train_batch_losses train_data num_items mask_prob seq_len rest
                           model' ;;
      ret (loss :: losses)
  end.

(** [random.shuffle(train_data)], line 87. *)
Definition do_shuffle (data : list (list Z)) : M (list (list Z)) :=
  fun w => let (data', g) := shuffle (rng w) data in
           (Ok data', mk_world g (out w)).

(** Lines 107-109. *)
Definition do_evaluate (m : Model) (val_data : list (list Z))
  (num_items : Z) : M (float * float) :=
  fun w => let '(ndcg, recall, g) :=
             evaluate_model m val_data num_items (rng w) in
           (Ok (ndcg, recall), mk_world g (out w)).

(** Reading a local that may be unbound. *)
Definition read_local {A} (x : option A) : res A :=
  match x with
  | Some v => Ok v
  | None => Raise UnboundLocalError
  end.

(** *** Writing files

    Whether a directory can be made or a file written is decided by the
    file system, which is not part of the module: [io_error op written] is
    the exception the operation [op] raises, if any, when [written] is what
    the run has written so far. *)
Variable io_error : io_op -> list (event Model) -> option exn.

Definition do_io (op : io_op) : M unit :=
  fun w =>
    match io_error op (out w) with
    | Some e => (Raise e, w)
    | None => (Ok tt, w)
    end.

(** Lines 130-131, reached with a [model_name] that is a string: the
    checkpoint is on disk only when neither call has raised. *)
Definition save_checkpoint (model_name : option string) (m : Model)
  : M unit :=
  match model_name with
  | Some name =>
      do_io (Makedirs "models") ;;
      let path := path_join "models" name in
      do_io (TorchSave path) ;;
      emit (EvSave path m)
  | None => ret tt
  end.

(** One pass through the body of the epoch loop, lines 85-136: the locals
    it leaves, and whether it left the loop by [break]. *)
Definition epoch_body (val_data : list (list Z)) (num_items : Z)
  (mask_prob : float) (model_name : option string) (seq_len : Z)
  (epoch : Z) (s : locals Model) : M (locals Model * bool) :=
  shuffled <- do_shuffle (train_data s) ;;
  starts <- lift (range 0 (len shuffled) BATCH_SIZE) ;;
  emit (EvEpoch epoch) ;;
  ' (model1, train_loss, lr1) <-
    train_batches shuffled num_items mask_prob seq_len starts
                  (model s) 0%float (current_lr s) ;;
  val_loss <- evaluate_val_loss model1 val_data num_items mask_prob seq_len ;;
  ' (val_ndcg, val_recall) <- do_evaluate model1 val_data num_items ;;
  let model2 := scheduler_step model1 val_ndcg in
  mean_loss <- lift (truediv train_loss (len shuffled)) ;;
  lr_seen <- lift (read_local lr1) ;;
  let entry :=
    mk_log_entry epoch mean_loss val_loss val_ndcg val_recall lr_seen in
  let history' := history s ++ [entry] in
  if gtb val_ndcg (PrimFloat.add (best_ndcg s) 1e-4%float) then
    (if truthy model_name then save_checkpoint model_name model2
     else ret tt) ;;
    ret (mk_locals model2 shuffled history' val_ndcg 0 lr1, false)
  else
    let counter := patience_counter s + 1 in
    if counter >=? PATIENCE then
      emit EvEarlyStop ;;
      ret (mk_locals model2 shuffled history' (best_ndcg s) counter lr1, true)
    else
      ret (mk_locals model2 shuffled history' (best_ndcg s) counter lr1, false).

(** The loop [for epoch in range(1, epochs + 1)], line 84. *)
Fixpoint epoch_loop (val_data : list (list Z)) (num_items : Z)
  (mask_prob : float) (model_name : option string) (seq_len : Z)
  (epochs_left : list Z) (s : locals Model) : M (locals Model) :=
  match epochs_left with
  | [] => ret s
  | epoch :: rest =>
      ' (s', stop) <-
        epoch_body val_data num_items mask_prob model_name seq_len epoch s ;;
      if stop : bool then ret s'
      else epoch_loop val_data num_items mask_prob model_name seq_len rest s'
  end.

(** [train_model(model, train_data, val_data, num_items, device, mask_prob,
    model_name, result_name, epochs, seq_len)], lines 61-142.  Line 138
    makes the directory before line 139 builds the path, which cannot be
    built with [result_name] left at [None]; the history is in the file only
    when opening it and [json.dump] have not raised. *)
Definition train_model (model0 : Model) (train_data0 val_data : list (list Z))
  (num_items : Z) (mask_prob : float) (model_name result_name : option string)
  (epochs : Z) (seq_len : Z) : M (list log_entry) :=
  epoch_range <- lift (range 1 (epochs + 1) 1) ;;
  s <- epoch_loop val_data num_items mask_prob model_name seq_len epoch_range
         (mk_locals model0 train_data0 [] 0%float 0 None) ;;
  do_io (Makedirs "results") ;;
  path <- lift (match result_name with
                | Some n => Ok (path_join "results" n)
                | None => Raise TypeError
                end) ;;
  do_io (WriteJson path) ;;
  emit (EvDump path (history s)) ;;
  ret (history s).

(** *** What a computation writes *)

(** Whatever its outcome, [c] only appends events, each satisfying [P]. *)
Definition appends {A} (P : event Model -> Prop) (c : M A) : Prop :=
  forall w r w', c w = (r, w') ->
  exists evs, out w' = out w ++ evs /\ Forall P evs.

(** *** The script, lines 157-164 *)

Variable MASK_PROB : float.
Variable EPOCHS : Z.
Variable PROCESSED_DIR : string.

(** [BERT4Rec(num_items=num_items)] *)
Variable BERT4Rec : Z -> Model.

Definition main (fs : file_system) : M (list log_entry) :=
  ' (train_seqs, val_seqs, test_seqs, num_items) <-
    lift (load_processed_data fs PROCESSED_DIR) ;;
  let model := BERT4Rec num_items in
  let exp_name := "config_1.json"%string in
  train_model model train_seqs val_seqs num_items MASK_PROB None
              (Some exp_name) EPOCHS 50.

(** *** The generator after a number of draws *)

(** The state of the generator after [n] calls of [random.random()]. *)
Definition advance (n : nat) (g : Rng) : Rng :=
  Nat.iter n (fun g' => snd (random g')) g.

Lemma unit_interval_not_below_zero (r : float) :
  unit_interval r -> PrimFloat.ltb r 0 = false.
Proof.
  intros [Hle _]. revert Hle. rewrite leb_spec, ltb_spec.
  replace (Prim2SF 0) with (S754_zero false) by reflexivity.
  destruct (Prim2SF r) as [s | s | | s m e]; try destruct s; cbn; congruence.
Qed.

Lemma len_nonneg {A} (l : list A) : 0 <= len l.
Proof. unfold len. lia. Qed.

Lemma last_elems_skipn {A} (n : nat) (l : list A) :
  last_elems n l = skipn (length l - n) l.
Proof.
  unfold last_elems.
  destruct (Nat.le_gt_cases n (length l)) as [Hle | Hgt].
  - rewrite <- (firstn_skipn (length l - n) l) at 1.
    rewrite rev_app_distr, firstn_app.
    replace (n - length (rev (skipn (length l - n) l)))%nat with 0%nat
      by (rewrite length_rev, length_skipn; lia).
    cbn [firstn]. rewrite app_nil_r.
    rewrite firstn_all2 by (rewrite length_rev, length_skipn; lia).
    apply rev_involutive.
  - replace (length l - n)%nat with 0%nat by lia.
    rewrite firstn_all2 by (rewrite length_rev; lia).
    apply rev_involutive.
Qed.

Lemma pad_sequence_short (s : list Z) (max_len : Z) :
  len s < max_len ->
  pad_sequence s max_len = repeat 0 (Z.to_nat (max_len - len s)) ++ s.
Proof.
  intros H. unfold pad_sequence.
  destruct (Z.geb_spec (len s) max_len); [lia | reflexivity].
Qed.

Lemma pad_sequence_long (s : list Z) (max_len : Z) :
  0 < max_len -> max_len <= len s ->
  pad_sequence s max_len = skipn (length s - Z.to_nat max_len) s.
Proof.
  intros Hpos H. unfold pad_sequence, slice_from, norm_index.
  destruct (Z.geb_spec (len s) max_len); [|lia].
  destruct (Z.ltb_spec (- max_len) 0); [|lia].
  f_equal. unfold len in *. lia.
Qed.

Lemma pad_sequence_length (s : list Z) (max_len : Z) :
  0 < max_len -> len (pad_sequence s max_len) = max_len.
Proof.
  intros Hpos.
  destruct (Z.lt_ge_cases (len s) max_len) as [Hlt | Hge].
  - rewrite pad_sequence_short by assumption.
    unfold len in *. rewrite length_app, repeat_length. lia.
  - rewrite pad_sequence_long by assumption.
    unfold len in *. rewrite length_skipn. lia.
Qed.

(** C2.  For a positive [max_len]: a sequence no longer than [max_len] is
    padded to length exactly [max_len] by prefixing [max_len - len s]
    zeros; a longer sequence is cut down to its last [max_len] elements. *)
Theorem pad_sequence_spec (s : list Z) (max_len : Z) :
  0 < max_len ->
  (len s <= max_len ->
     len (pad_sequence s max_len) = max_len /\
     pad_sequence s max_len = repeat 0 (Z.to_nat (max_len - len s)) ++ s) /\
  (len s > max_len ->
     pad_sequence s max_len = last_elems (Z.to_nat max_len) s).
Proof.
  intros Hpos. split.
  - intros Hle. split; [now apply pad_sequence_length|].
    destruct (Z.eq_dec (len s) max_len) as [Heq | Hne].
    + rewrite pad_sequence_long by lia.
      replace (max_len - len s) with 0 by lia.
      replace (length s - Z.to_nat max_len)%nat with 0%nat
        by (unfold len in *; lia).
      reflexivity.
    + apply pad_sequence_short. lia.
  - intros Hgt. rewrite pad_sequence_long by lia.
    symmetry. apply last_elems_skipn.
Qed.

Lemma pad_sequence_spec_witness :
  (len [1; 2] <= 5 ->
     len (pad_sequence [1; 2] 5) = 5 /\
     pad_sequence [1; 2] 5 = repeat 0 (Z.to_nat (5 - len [1; 2])) ++ [1; 2]) /\
  (len [1; 2] > 5 ->
     pad_sequence [1; 2] 5 = last_elems (Z.to_nat 5) [1; 2]).
Proof. apply (pad_sequence_spec [1; 2] 5). lia. Defined.


(** ** Loading the data *)

Lemma fold_left_max_ge xs x : x <= fold_left Z.max xs x.
Proof.
  revert x. induction xs as [| y ys IH]; intros x; cbn; [lia |].
  specialize (IH (Z.max x y)). lia.
Qed.

Lemma fold_left_max_upper xs x y :
  In y xs -> y <= fold_left Z.max xs x.
Proof.
  revert x. induction xs as [| z zs IH]; intros x Hin; cbn; [contradiction |].
  destruct Hin as [-> | Hin].
  - pose proof (fold_left_max_ge zs (Z.max x y)). lia.
  - now apply IH.
Qed.

Lemma fold_left_max_in xs x :
  fold_left Z.max xs x = x \/ In (fold_left Z.max xs x) xs.
Proof.
  revert x. induction xs as [| y ys IH]; intros x; cbn; [auto |].
  destruct (IH (Z.max x y)) as [Heq | Hin]; [| auto].
  rewrite Heq. destruct (Z.max_spec x y) as [[_ ->] | [_ ->]]; auto.
Qed.

(** [max] returns an element that no element exceeds. *)
Lemma py_max_spec s n :
  py_max s = Ok n -> In n s /\ forall x, In x s -> x <= n.
Proof.
  destruct s as [| x xs]; cbn; [discriminate |].
  intros H. injection H as <-. split.
  - destruct (fold_left_max_in xs x) as [-> | Hin]; auto.
  - intros y [<- | Hin];
      [apply fold_left_max_ge | now apply fold_left_max_upper].
Qed.

Lemma all_items_in (seqs : list (list Z)) x :
  In x (py_set (filter (fun item => negb (item =? 0)) (concat seqs))) <->
  In x (concat seqs) /\ x <> 0.
Proof.
  unfold py_set. rewrite nodup_In, filter_In.
  destruct (Z.eqb_spec x 0) as [Hz | Hnz]; cbn.
  - split; [intros [_ H]; discriminate | intros [_ H]; contradiction].
  - split; [intros [H _]; auto | intros [H _]; auto].
Qed.

(** C8.  [load_processed_data] returns the three splits with [num_items]
    the largest item id other than [0] found in any of them; it fails with
    a [DataError] when one of the three files is missing
    ([FileNotFoundError]) and when every sequence is empty ([ValueError]
    from the maximum of nothing). *)
Theorem load_processed_data_spec (fs : file_system) (dir : string) :
  (forall tr va te n,
      load_processed_data fs dir = Ok (tr, va, te, n) ->
      fs (path_join dir "train_seqs.pkl") = Some tr /\
      fs (path_join dir "val_seqs.pkl") = Some va /\
      fs (path_join dir "test_seqs.pkl") = Some te /\
      n <> 0 /\ In n (concat (tr ++ va ++ te)) /\
      forall x, In x (concat (tr ++ va ++ te)) -> x <> 0 -> x <= n) /\
  (forall tr va te,
      fs (path_join dir "train_seqs.pkl") = Some tr ->
      fs (path_join dir "val_seqs.pkl") = Some va ->
      fs (path_join dir "test_seqs.pkl") = Some te ->
      (exists x, In x (concat (tr ++ va ++ te)) /\ x <> 0) ->
      exists n, load_processed_data fs dir = Ok (tr, va, te, n)) /\
  (fs (path_join dir "train_seqs.pkl") = None \/
   fs (path_join dir "val_seqs.pkl") = None \/
   fs (path_join dir "test_seqs.pkl") = None ->
   load_processed_data fs dir = Raise FileNotFoundError /\
   DataError FileNotFoundError) /\
  (forall tr va te,
      fs (path_join dir "train_seqs.pkl") = Some tr ->
      fs (path_join dir "val_seqs.pkl") = Some va ->
      fs (path_join dir "test_seqs.pkl") = Some te ->
      (forall s, In s (tr ++ va ++ te) -> s = []) ->
      load_processed_data fs dir = Raise ValueError /\
      DataError ValueError).
Proof.
  unfold load_processed_data, open_load.
  destruct (fs (path_join dir "train_seqs.pkl")) as [tr0 |];
    destruct (fs (path_join dir "val_seqs.pkl")) as [va0 |];
    destruct (fs (path_join dir "test_seqs.pkl")) as [te0 |];
    cbn [and_then].
  2-8: (split; [intros; discriminate |];
        split; [intros; discriminate |];
        split; [intros _; split; [reflexivity | now left] |];
        intros; discriminate).
  split; [| split; [| split]].
  - intros tr va te n H.
    destruct (py_max _) as [m |] eqn:Hmax; cbn [and_then] in H;
      [| discriminate].
    injection H as <- <- <- <-.
    apply py_max_spec in Hmax as [Hin Hub].
    apply all_items_in in Hin as [Hin Hnz].
    repeat split; try assumption.
    intros x Hx Hxnz. apply Hub. now apply all_items_in.
  - intros tr va te [= <-] [= <-] [= <-] (x & Hx & Hnz).
    destruct (py_max _) as [m |] eqn:Hmax; cbn [and_then]; [eauto |].
    exfalso.
    assert (Hin : In x (py_set (filter (fun item => negb (item =? 0))
                                       (concat (tr0 ++ va0 ++ te0)))))
      by now apply all_items_in.
    destruct (py_set _); [contradiction | discriminate].
  - intros [H | [H | H]]; discriminate.
  - intros tr va te [= <-] [= <-] [= <-] Hempty.
    replace (concat (tr0 ++ va0 ++ te0)) with (@nil Z).
    + cbn. split; [reflexivity | now right].
    + symmetry. apply concat_nil_Forall. apply Forall_forall.
      intros s Hs. now apply Hempty.
Qed.

(** ** Running computations *)

Lemma bind_ok {A B} (c : M A) (k : A -> M B) w a w' :
  c w = (Ok a, w') -> bind c k w = k a w'.
Proof. intros H. unfold bind. now rewrite H. Qed.

Lemma bind_raise {A B} (c : M A) (k : A -> M B) w e w' :
  c w = (Raise e, w') -> bind c k w = (Raise e, w').
Proof. intros H. unfold bind. now rewrite H. Qed.

Lemma bind_inv {A B} (c : M A) (k : A -> M B) w b w2 :
  bind c k w = (Ok b, w2) ->
  exists a w1, c w = (Ok a, w1) /\ k a w1 = (Ok b, w2).
Proof.
  unfold bind. destruct (c w) as [[a | e] w1]; intros H.
  - now exists a, w1.
  - discriminate.
Qed.

(** ** Masking *)

Lemma row_ok_length MASK_ID xs ms ls :
  row_ok MASK_ID xs ms ls -> length ms = length xs /\ length ls = length xs.
Proof. induction 1; cbn; lia. Qed.

Lemma row_ok_nth MASK_ID xs ms ls :
  row_ok MASK_ID xs ms ls ->
  forall j x, nth_error xs j = Some x ->
  exists m l, nth_error ms j = Some m /\ nth_error ls j = Some l /\
              position_ok MASK_ID x m l.
Proof.
  induction 1 as [| x m l xs ms ls Hp _ IH]; intros [| j] y Hy;
    cbn in *; try discriminate.
  - injection Hy as <-. eauto.
  - eauto.
Qed.

Lemma rows_ok_cell MASK_ID xs ms ls :
  rows_ok MASK_ID xs ms ls ->
  forall i j x, cell xs i j = Some x ->
  exists m l, cell ms i j = Some m /\ cell ls i j = Some l /\
              position_ok MASK_ID x m l.
Proof.
  unfold cell.
  induction 1 as [| x m l xs ms ls Hr _ IH]; intros [| i] j y Hy;
    cbn in *; try discriminate.
  - eapply row_ok_nth; eassumption.
  - eauto.
Qed.

Lemma rows_ok_lengths MASK_ID xs ms ls :
  rows_ok MASK_ID xs ms ls ->
  Forall2 (fun x m => length m = length x) xs ms /\
  Forall2 (fun x l => length l = length x) xs ls.
Proof.
  induction 1 as [| x m l xs ms ls Hr _ [IH1 IH2]]; split; constructor;
    try assumption; apply row_ok_length in Hr; destruct Hr; assumption.
Qed.

Lemma position_ok_zero MASK_ID m l :
  position_ok MASK_ID 0 m l -> m = 0 /\ l = 0.
Proof. intros [(_ & _ & H) | (-> & ->)]; [contradiction | auto]. Qed.

(** Masking a row never raises, writes nothing, and leaves every position
    either masked with its item as label, or untouched with label [0]. *)
Lemma mask_row_run MASK_ID mask_prob padded w :
  exists masked label g,
    mask_row MASK_ID mask_prob padded w
      = (Ok (masked, label), mk_world g (out w)) /\
    row_ok MASK_ID padded masked label.
Proof.
  revert w. induction padded as [| item rest IH]; intros w.
  - exists [], [], (rng w). destruct w. split; [reflexivity | constructor].
  - cbn [mask_row]. destruct (Z.eqb_spec item 0) as [-> | Hnz].
    + destruct (IH w) as (ms & ls & g & Hrun & Hok).
      exists (0 :: ms), (0 :: ls), g. split.
      * unfold bind at 1. unfold ret at 1. unfold bind. rewrite Hrun.
        reflexivity.
      * constructor; [right; auto | assumption].
    + unfold bind at 1. unfold bind at 1. unfold draw.
      destruct (random (rng w)) as [r g1] eqn:Hr. unfold ret at 1.
      destruct (IH (mk_world g1 (out w))) as (ms & ls & g & Hrun & Hok).
      cbn [out] in Hrun. unfold bind. rewrite Hrun.
      destruct (PrimFloat.ltb r mask_prob).
      * exists (MASK_ID :: ms), (item :: ls), g. split; [reflexivity|].
        constructor; [left; auto | assumption].
      * exists (item :: ms), (0 :: ls), g. split; [reflexivity|].
        constructor; [right; auto | assumption].
Qed.

Lemma mask_rows_run MASK_ID mask_prob seq_len seqs w :
  exists masked_seqs labels g,
    mask_rows MASK_ID mask_prob seq_len seqs w
      = (Ok (masked_seqs, labels), mk_world g (out w)) /\
    rows_ok MASK_ID (padded_batch seqs seq_len) masked_seqs labels.
Proof.
  revert w. induction seqs as [| seq rest IH]; intros w.
  - exists [], [], (rng w). destruct w. split; [reflexivity | constructor].
  - cbn [mask_rows padded_batch map].
    destruct (mask_row_run MASK_ID mask_prob (pad_sequence seq seq_len) w)
      as (m & l & g1 & Hrow & Hok).
    destruct (IH (mk_world g1 (out w))) as (ms & ls & g & Hrun & Hoks).
    cbn [out] in Hrun.
    exists (m :: ms), (l :: ls), g. split.
    + rewrite (bind_ok _ _ _ _ _ Hrow). rewrite (bind_ok _ _ _ _ _ Hrun).
      reflexivity.
    + constructor; assumption.
Qed.

Lemma rectangular_same_length (n : nat) rows :
  Forall (fun r => length r = n) rows -> rectangular rows = true.
Proof.
  intros H. destruct rows as [| r rs]; [reflexivity|].
  destruct r as [| x r]; [reflexivity|].
  cbn [rectangular]. inversion H as [| ? ? Hr Hrs]; subst.
  apply forallb_forall. intros r' Hin.
  rewrite Forall_forall in Hrs. rewrite (Hrs r' Hin). apply Nat.eqb_refl.
Qed.

Lemma map_empty_rows (rows : list (list Z)) :
  Forall (fun r => length r = 0%nat) rows ->
  map (fun _ : list Z => @nil Z) rows = rows.
Proof.
  induction 1 as [| r rs Hr _ IH]; [reflexivity|].
  cbn [map]. rewrite IH. destruct r; [reflexivity | discriminate].
Qed.

Lemma tensor_rows_same_length (n : nat) rows :
  Forall (fun r => length r = n) rows -> tensor_rows rows = rows.
Proof.
  intros H. destruct rows as [| r rs]; [reflexivity|].
  destruct r as [| x r]; [| reflexivity].
  unfold tensor_rows. apply map_empty_rows.
  inversion H as [| ? ? Hr Hrs]; subst. exact H.
Qed.

Lemma padded_batch_lengths seqs seq_len :
  0 < seq_len ->
  Forall (fun r => length r = Z.to_nat seq_len) (padded_batch seqs seq_len).
Proof.
  intros Hpos. unfold padded_batch. apply Forall_forall.
  intros r Hin. apply in_map_iff in Hin as (s & <- & _).
  pose proof (pad_sequence_length s seq_len Hpos) as H.
  unfold len in H. lia.
Qed.

Lemma Forall2_length_transfer {A B} (f : A -> nat) (g : B -> nat) n xs ys :
  Forall2 (fun x y => g y = f x) xs ys ->
  Forall (fun x => f x = n) xs -> Forall (fun y => g y = n) ys.
Proof.
  induction 1 as [| x y xs ys Hxy _ IH]; intros Hall; constructor;
    inversion Hall; subst; [congruence | auto].
Qed.

Lemma LongTensor_run rows n w :
  Forall (fun r => length r = n) rows -> LongTensor rows w = (Ok rows, w).
Proof.
  intros H. unfold LongTensor.
  rewrite (rectangular_same_length n rows H).
  now rewrite (tensor_rows_same_length n rows H).
Qed.

(** With a positive [seq_len], [mask_items] returns, and its two tensors
    stand in [rows_ok] to the padded batch. *)
Lemma mask_items_run seqs num_items mask_prob seq_len w :
  0 < seq_len ->
  exists masked_inputs labels g,
    mask_items seqs num_items mask_prob seq_len w
      = (Ok (masked_inputs, labels), mk_world g (out w)) /\
    rows_ok (num_items + 1) (padded_batch seqs seq_len) masked_inputs labels.
Proof.
  intros Hpos. unfold mask_items.
  destruct (mask_rows_run (num_items + 1) mask_prob seq_len seqs w)
    as (ms & ls & g & Hrun & Hok).
  exists ms, ls, g. split; [| assumption].
  rewrite (bind_ok _ _ _ _ _ Hrun).
  destruct (rows_ok_lengths _ _ _ _ Hok) as [Hm Hl].
  pose proof (padded_batch_lengths seqs seq_len Hpos) as Hpad.
  rewrite (bind_ok _ _ _ _ _
    (LongTensor_run ms _ _
       (Forall2_length_transfer _ _ _ _ _ Hm Hpad))).
  rewrite (bind_ok _ _ _ _ _
    (LongTensor_run ls _ _
       (Forall2_length_transfer _ _ _ _ _ Hl Hpad))).
  reflexivity.
Qed.

(** C1.  For a positive [seq_len], whatever the vocabulary size, the
    masking probability and the random draws, a pair
    [(masked_inputs, labels)] that [mask_items] returns is such that at every
    position of the padded batch either the input is
    [MASK_ID = num_items + 1] and the label is the padded item, which is not
    [0], or the input is the padded value and the label is [0]; a position
    padded with [0] has input [0] and label [0].  Both tensors have the
    shape of the padded batch. *)
Theorem mask_items_invariant seqs num_items mask_prob seq_len w
  masked_inputs labels w' :
  0 < seq_len ->
  mask_items seqs num_items mask_prob seq_len w
    = (Ok (masked_inputs, labels), w') ->
  Forall2 (fun p m => length m = length p)
          (padded_batch seqs seq_len) masked_inputs /\
  Forall2 (fun p l => length l = length p)
          (padded_batch seqs seq_len) labels /\
  forall i j x,
    cell (padded_batch seqs seq_len) i j = Some x ->
    exists m l,
      cell masked_inputs i j = Some m /\ cell labels i j = Some l /\
      position_ok (num_items + 1) x m l /\
      (x = 0 -> m = 0 /\ l = 0).
Proof.
  intros Hpos Hret.
  destruct (mask_items_run seqs num_items mask_prob seq_len w Hpos)
    as (ms & ls & g & Hrun & Hok).
  rewrite Hrun in Hret. injection Hret as <- <- _.
  destruct (rows_ok_lengths _ _ _ _ Hok) as [Hlm Hll].
  split; [assumption | split; [assumption |]].
  intros i j x Hx.
  destruct (rows_ok_cell _ _ _ _ Hok i j x Hx) as (m & l & Hm & Hl & Hp).
  exists m, l.
  split; [assumption | split; [assumption | split; [assumption |]]].
  intros ->. now apply position_ok_zero in Hp.
Qed.

(** *** The two extreme probabilities *)

Lemma mask_row_prob_zero MASK_ID padded w :
  exists g,
    mask_row MASK_ID 0%float padded w
      = (Ok (padded, no_label padded), mk_world g (out w)).
Proof using random_range.
  revert w. induction padded as [| item rest IH]; intros w.
  - exists (rng w). now destruct w.
  - cbn [mask_row no_label map]. destruct (Z.eqb_spec item 0) as [-> | Hnz].
    + destruct (IH w) as (g & Hrun). exists g.
      rewrite (bind_ok _ _ w false w eq_refl).
      now rewrite (bind_ok _ _ _ _ _ Hrun).
    + unfold bind at 1. unfold bind at 1. unfold draw.
      pose proof (random_range (rng w)) as Hrange.
      destruct (random (rng w)) as [r g1]. cbn [fst] in Hrange.
      unfold ret at 1.
      rewrite (unit_interval_not_below_zero r Hrange).
      destruct (IH (mk_world g1 (out w))) as (g & Hrun). exists g.
      cbn [out] in Hrun. now rewrite (bind_ok _ _ _ _ _ Hrun).
Qed.

Lemma mask_row_prob_one MASK_ID padded w :
  exists g,
    mask_row MASK_ID 1%float padded w
      = (Ok (all_masked MASK_ID padded, padded), mk_world g (out w)).
Proof using random_range.
  revert w. induction padded as [| item rest IH]; intros w.
  - exists (rng w). now destruct w.
  - cbn [mask_row all_masked map]. destruct (Z.eqb_spec item 0) as [-> | Hnz].
    + destruct (IH w) as (g & Hrun). exists g.
      rewrite (bind_ok _ _ w false w eq_refl).
      now rewrite (bind_ok _ _ _ _ _ Hrun).
    + unfold bind at 1. unfold bind at 1. unfold draw.
      pose proof (random_range (rng w)) as Hrange.
      destruct (random (rng w)) as [r g1]. cbn [fst] in Hrange.
      unfold ret at 1. destruct Hrange as [_ ->].
      destruct (IH (mk_world g1 (out w))) as (g & Hrun). exists g.
      cbn [out] in Hrun. now rewrite (bind_ok _ _ _ _ _ Hrun).
Qed.

Lemma mask_rows_prob_zero MASK_ID seq_len seqs w :
  exists g,
    mask_rows MASK_ID 0%float seq_len seqs w
      = (Ok (padded_batch seqs seq_len,
             map no_label (padded_batch seqs seq_len)),
         mk_world g (out w)).
Proof using random_range.
  revert w. induction seqs as [| seq rest IH]; intros w.
  - exists (rng w). now destruct w.
  - cbn [mask_rows padded_batch map].
    destruct (mask_row_prob_zero MASK_ID (pad_sequence seq seq_len) w)
      as (g1 & Hrow).
    destruct (IH (mk_world g1 (out w))) as (g & Hrun). exists g.
    cbn [out] in Hrun.
    rewrite (bind_ok _ _ _ _ _ Hrow). now rewrite (bind_ok _ _ _ _ _ Hrun).
Qed.

Lemma mask_rows_prob_one MASK_ID seq_len seqs w :
  exists g,
    mask_rows MASK_ID 1%float seq_len seqs w
      = (Ok (map (all_masked MASK_ID) (padded_batch seqs seq_len),
             padded_batch seqs seq_len),
         mk_world g (out w)).
Proof using random_range.
  revert w. induction seqs as [| seq rest IH]; intros w.
  - exists (rng w). now destruct w.
  - cbn [mask_rows padded_batch map].
    destruct (mask_row_prob_one MASK_ID (pad_sequence seq seq_len) w)
      as (g1 & Hrow).
    destruct (IH (mk_world g1 (out w))) as (g & Hrun). exists g.
    cbn [out] in Hrun.
    rewrite (bind_ok _ _ _ _ _ Hrow). now rewrite (bind_ok _ _ _ _ _ Hrun).
Qed.

Lemma Forall_map_length {A} (f : list A -> list A) n rows :
  (forall r, length (f r) = length r) ->
  Forall (fun r => length r = n) rows ->
  Forall (fun r => length r = n) (map f rows).
Proof.
  intros Hf H. apply Forall_forall. intros r Hin.
  apply in_map_iff in Hin as (r0 & <- & Hin0).
  rewrite Hf. rewrite Forall_forall in H. auto.
Qed.

Lemma mask_items_prob_zero seqs num_items seq_len w :
  0 < seq_len ->
  exists w',
    mask_items seqs num_items 0%float seq_len w
      = (Ok (padded_batch seqs seq_len,
             map no_label (padded_batch seqs seq_len)), w').
Proof using random_range.
  intros Hpos.
  pose proof (padded_batch_lengths seqs seq_len Hpos) as Hpad.
  destruct (mask_rows_prob_zero (num_items + 1) seq_len seqs w)
    as (g & Hrun).
  exists (mk_world g (out w)). unfold mask_items.
  rewrite (bind_ok _ _ _ _ _ Hrun).
  rewrite (bind_ok _ _ _ _ _ (LongTensor_run _ _ _ Hpad)).
  rewrite (bind_ok _ _ _ _ _
    (LongTensor_run _ _ _
       (Forall_map_length no_label _ _
          (fun r => length_map _ r) Hpad))).
  reflexivity.
Qed.

Lemma mask_items_prob_one seqs num_items seq_len w :
  0 < seq_len ->
  exists w',
    mask_items seqs num_items 1%float seq_len w
      = (Ok (map (all_masked (num_items + 1)) (padded_batch seqs seq_len),
             padded_batch seqs seq_len), w').
Proof using random_range.
  intros Hpos.
  pose proof (padded_batch_lengths seqs seq_len Hpos) as Hpad.
  destruct (mask_rows_prob_one (num_items + 1) seq_len seqs w)
    as (g & Hrun).
  exists (mk_world g (out w)). unfold mask_items.
  rewrite (bind_ok _ _ _ _ _ Hrun).
  rewrite (bind_ok _ _ _ _ _
    (LongTensor_run _ _ _
       (Forall_map_length (all_masked (num_items + 1)) _ _
          (fun r => length_map _ r) Hpad))).
  rewrite (bind_ok _ _ _ _ _ (LongTensor_run _ _ _ Hpad)).
  reflexivity.
Qed.

(** C5.  With [mask_prob = 0] nothing is masked: the inputs [mask_items]
    returns are the padded sequences and every label is [0].  With
    [mask_prob = 1] every non-zero padded position of the inputs it returns
    holds [MASK_ID] and has its item as label (so the labels are the padded
    sequences), and the zero positions stay [0]. *)
Theorem mask_items_extremes seqs num_items seq_len w masked_inputs labels w' :
  0 < seq_len ->
  (mask_items seqs num_items 0%float seq_len w
     = (Ok (masked_inputs, labels), w') ->
   masked_inputs = padded_batch seqs seq_len /\
   labels = map no_label (padded_batch seqs seq_len)) /\
  (mask_items seqs num_items 1%float seq_len w
     = (Ok (masked_inputs, labels), w') ->
   masked_inputs
     = map (all_masked (num_items + 1)) (padded_batch seqs seq_len) /\
   labels = padded_batch seqs seq_len).
Proof using random_range.
  intros Hpos. split; intros Hret.
  - destruct (mask_items_prob_zero seqs num_items seq_len w Hpos)
      as (w1 & Hrun).
    rewrite Hrun in Hret. injection Hret as <- <- _. split; reflexivity.
  - destruct (mask_items_prob_one seqs num_items seq_len w Hpos)
      as (w1 & Hrun).
    rewrite Hrun in Hret. injection Hret as <- <- _. split; reflexivity.
Qed.

(** ** What a computation writes *)

Lemma appends_weaken {A} (P Q : event Model -> Prop) (c : M A) :
  (forall ev, P ev -> Q ev) -> appends P c -> appends Q c.
Proof.
  intros HPQ Hc w r w' Hrun. destruct (Hc w r w' Hrun) as (evs & Hout & Hall).
  exists evs. split; [assumption|]. eapply Forall_impl; eauto.
Qed.

Lemma appends_ret {A} P (a : A) : appends P (ret a).
Proof.
  intros w r w' H. unfold ret in H. injection H as <- <-.
  exists []. now rewrite app_nil_r.
Qed.

Lemma appends_raise {A} P e : appends P (@raise A e).
Proof.
  intros w r w' H. unfold raise in H. injection H as <- <-.
  exists []. now rewrite app_nil_r.
Qed.

Lemma appends_lift {A} P (x : res A) : appends P (lift x).
Proof.
  intros w r w' H. unfold lift in H. injection H as <- <-.
  exists []. now rewrite app_nil_r.
Qed.

Lemma appends_emit (P : event Model -> Prop) ev : P ev -> appends P (emit ev).
Proof.
  intros HP w r w' H. unfold emit in H. injection H as <- <-.
  exists [ev]. cbn. auto.
Qed.

Lemma appends_draw P : appends P draw.
Proof.
  intros w r w' H. unfold draw in H.
  destruct (random (rng w)) as [x g]. injection H as <- <-.
  exists []. cbn. now rewrite app_nil_r.
Qed.

Lemma appends_do_evaluate P m val_data num_items :
  appends P (do_evaluate m val_data num_items).
Proof.
  intros w r w' H. unfold do_evaluate in H.
  destruct (evaluate_model m val_data num_items (rng w)) as [[x y] g].
  injection H as <- <-.
  exists []. cbn. now rewrite app_nil_r.
Qed.

Lemma appends_do_shuffle P data : appends P (do_shuffle data).
Proof.
  intros w r w' H. unfold do_shuffle in H.
  destruct (shuffle (rng w) data) as [x g]. injection H as <- <-.
  exists []. cbn. now rewrite app_nil_r.
Qed.

Lemma appends_do_io P op : appends P (do_io op).
Proof.
  intros w r w' H. unfold do_io in H.
  destruct (io_error op (out w)); injection H as <- <-;
    exists []; now rewrite app_nil_r.
Qed.

Lemma appends_bind {A B} P (c : M A) (k : A -> M B) :
  appends P c -> (forall a, appends P (k a)) -> appends P (bind c k).
Proof.
  intros Hc Hk w r w' H. unfold bind in H.
  destruct (c w) as [[a | e] w1] eqn:Hcw.
  - destruct (Hc _ _ _ Hcw) as (evs1 & Ho1 & Ha1).
    destruct (Hk a _ _ _ H) as (evs2 & Ho2 & Ha2).
    exists (evs1 ++ evs2). split.
    + now rewrite Ho2, Ho1, app_assoc.
    + apply Forall_app. auto.
  - injection H as <- <-. eauto.
Qed.

(** A computation that writes nothing leaves the output as it found it. *)
Lemma appends_nothing {A} (c : M A) w r w' :
  appends (fun _ => False) c -> c w = (r, w') -> out w' = out w.
Proof.
  intros Hc Hrun. destruct (Hc _ _ _ Hrun) as (evs & Hout & Hall).
  destruct evs as [| ev evs].
  - now rewrite app_nil_r in Hout.
  - inversion Hall; contradiction.
Qed.

Ltac appends_step :=
  first
    [ apply appends_ret
    | apply appends_raise
    | apply appends_lift
    | apply appends_draw
    | apply appends_do_shuffle
    | apply appends_bind; [| intros ] ].

Lemma appends_mask_row P MASK_ID mask_prob padded :
  appends P (mask_row MASK_ID mask_prob padded).
Proof.
  induction padded as [| item rest IH]; cbn [mask_row].
  - apply appends_ret.
  - apply appends_bind.
    + destruct (item =? 0); repeat appends_step.
    + intros hit. apply appends_bind; [exact IH |].
      intros [masked label]. apply appends_ret.
Qed.

Lemma appends_mask_rows P MASK_ID mask_prob seq_len seqs :
  appends P (mask_rows MASK_ID mask_prob seq_len seqs).
Proof.
  induction seqs as [| seq rest IH]; cbn [mask_rows].
  - apply appends_ret.
  - apply appends_bind; [apply appends_mask_row |].
    intros [masked label]. apply appends_bind; [exact IH |].
    intros [ms ls]. apply appends_ret.
Qed.

Lemma appends_LongTensor P rows : appends P (LongTensor rows).
Proof.
  unfold LongTensor. destruct (rectangular rows); appends_step.
Qed.

Lemma appends_mask_items P seqs num_items mask_prob seq_len :
  appends P (mask_items seqs num_items mask_prob seq_len).
Proof.
  unfold mask_items. apply appends_bind; [apply appends_mask_rows |].
  intros [ms ls]. apply appends_bind; [apply appends_LongTensor |].
  intros t1. apply appends_bind; [apply appends_LongTensor |].
  intros t2. apply appends_ret.
Qed.

Lemma appends_val_batches P model val_data num_items mask_prob seq_len
      starts total :
  appends P (val_batches model val_data num_items mask_prob seq_len
                         starts total).
Proof.
  revert total. induction starts as [| i rest IH]; intros total;
    cbn [val_batches].
  - apply appends_ret.
  - apply appends_bind; [apply appends_mask_items |].
    intros [ms ls]. apply IH.
Qed.

Lemma appends_evaluate_val_loss P model val_data num_items mask_prob seq_len :
  appends P (evaluate_val_loss model val_data num_items mask_prob seq_len).
Proof.
  unfold evaluate_val_loss. apply appends_bind; [apply appends_lift |].
  intros starts. apply appends_bind; [apply appends_val_batches |].
  intros total. apply appends_lift.
Qed.

Lemma appends_train_batches P train_data num_items mask_prob seq_len
      starts model total lr :
  appends P (train_batches train_data num_items mask_prob seq_len
                           starts model total lr).
Proof.
  revert model total lr. induction starts as [| i rest IH];
    intros model total lr; cbn [train_batches].
  - apply appends_ret.
  - apply appends_bind; [apply appends_mask_items |].
    intros [ms ls]. destruct (train_step model ms ls) as [[loss new_lr] m'].
    apply IH.
Qed.

Lemma appends_epoch_body val_data num_items mask_prob model_name seq_len
      e s :
  appends (epoch_event model_name)
          (epoch_body val_data num_items mask_prob model_name seq_len e s).
Proof.
  unfold epoch_body.
  apply appends_bind; [apply appends_do_shuffle |]. intros shuffled.
  apply appends_bind; [apply appends_lift |]. intros starts.
  apply appends_bind; [apply appends_emit; exact I |]. intros _.
  apply appends_bind; [apply appends_train_batches |].
  intros [[model1 total] lr1].
  apply appends_bind; [apply appends_evaluate_val_loss |]. intros vloss.
  apply appends_bind; [apply appends_do_evaluate |]. intros [ndcg recall].
  apply appends_bind; [apply appends_lift |]. intros mean.
  apply appends_bind; [apply appends_lift |]. intros lr_seen.
  destruct (gtb ndcg (PrimFloat.add (best_ndcg s) 1e-4%float)).
  - apply appends_bind; [| intros; apply appends_ret].
    destruct (truthy model_name) eqn:Ht; [| apply appends_ret].
    unfold save_checkpoint. destruct model_name as [name |];
      [| apply appends_ret].
    apply appends_bind; [apply appends_do_io |]. intros _.
    apply appends_bind; [apply appends_do_io |]. intros _.
    apply appends_emit. exact Ht.
  - destruct (patience_counter s + 1 >=? PATIENCE).
    + apply appends_bind; [apply appends_emit; exact I |].
      intros _. apply appends_ret.
    + apply appends_ret.
Qed.

Lemma appends_epoch_loop val_data num_items mask_prob model_name seq_len
      es s :
  appends (epoch_event model_name)
          (epoch_loop val_data num_items mask_prob model_name seq_len es s).
Proof.
  revert s. induction es as [| e rest IH]; intros s; cbn [epoch_loop].
  - apply appends_ret.
  - apply appends_bind; [apply appends_epoch_body |].
    intros [s' stop]. destruct stop; [apply appends_ret | apply IH].
Qed.

(** ** Calls to the file system *)

Lemma do_io_inv op w u w' :
  do_io op w = (Ok u, w') -> w' = w /\ io_error op (out w) = None.
Proof.
  unfold do_io. destruct (io_error op (out w)); intros H;
    [discriminate | injection H as _ <-]. split; reflexivity.
Qed.

Lemma do_io_run op w :
  io_error op (out w) = None -> do_io op w = (Ok tt, w).
Proof. intros H. unfold do_io. now rewrite H. Qed.

(** A checkpoint call that returns has written its file, and nothing else
    has changed. *)
Lemma save_checkpoint_inv name m w u w' :
  save_checkpoint (Some name) m w = (Ok u, w') ->
  w' = mk_world (rng w) (out w ++ [EvSave (path_join "models" name) m]).
Proof.
  unfold save_checkpoint. intros H.
  apply bind_inv in H as (u1 & w1 & H1 & H).
  apply do_io_inv in H1 as [-> _].
  apply bind_inv in H as (u2 & w2 & H2 & H).
  apply do_io_inv in H2 as [-> _].
  unfold emit in H. now injection H as _ <-.
Qed.

(** ** Loss normalisation *)

Lemma range_count_batches n :
  0 < BATCH_SIZE -> 0 <= n ->
  range_count 0 n BATCH_SIZE = (n + BATCH_SIZE - 1) / BATCH_SIZE.
Proof.
  intros HB Hn. unfold range_count.
  destruct (Z.ltb_spec 0 BATCH_SIZE); [| lia].
  destruct (Z.ltb_spec 0 n).
  - replace (n - 0 - 1) with (n - 1) by lia.
    replace (n + BATCH_SIZE - 1) with (n - 1 + 1 * BATCH_SIZE) by lia.
    rewrite Z.div_add by lia. reflexivity.
  - replace n with 0 by lia. cbn.
    symmetry. apply Z.div_small. lia.
Qed.

Lemma batch_offsets_range data :
  BATCH_SIZE <> 0 ->
  range 0 (len data) BATCH_SIZE = Ok (batch_offsets data).
Proof.
  intros HB. unfold batch_offsets, range.
  destruct (Z.eqb_spec BATCH_SIZE 0); [contradiction | reflexivity].
Qed.

(** The number of batches: the sequence count divided by the batch size,
    rounded up. *)
Lemma batch_offsets_count data :
  0 < BATCH_SIZE ->
  len (batch_offsets data) = (len data + BATCH_SIZE - 1) / BATCH_SIZE.
Proof.
  intros HB. unfold batch_offsets, range.
  destruct (Z.eqb_spec BATCH_SIZE 0); [lia |].
  unfold len at 1. rewrite length_map, length_seq.
  rewrite range_count_batches by (auto using len_nonneg).
  apply Z2Nat.id. apply Z.div_pos; pose proof (len_nonneg data); lia.
Qed.

Lemma val_batch_losses_run model val_data num_items mask_prob seq_len
      starts w :
  0 < seq_len ->
  exists losses g,
    val_batch_losses model val_data num_items mask_prob seq_len starts w
      = (Ok losses, mk_world g (out w)) /\
    length losses = length starts.
Proof.
  intros Hpos. revert w. induction starts as [| i rest IH]; intros w.
  - exists [], (rng w). now destruct w.
  - cbn [val_batch_losses].
    destruct (mask_items_run (slice val_data i (i + BATCH_SIZE))
                num_items mask_prob seq_len w Hpos)
      as (ms & ls & g1 & Hrun & _).
    destruct (IH (mk_world g1 (out w))) as (losses & g & Hrest & Hlen).
    cbn [out] in Hrest.
    exists (eval_loss model ms ls :: losses), g. split.
    + rewrite (bind_ok _ _ _ _ _ Hrun). now rewrite (bind_ok _ _ _ _ _ Hrest).
    + cbn. now rewrite Hlen.
Qed.

(** The running total of the validation loop is the left-to-right sum of
    the batch losses, started from the total it was given. *)
Lemma val_batches_total model val_data num_items mask_prob seq_len
      starts total w losses w' :
  val_batch_losses model val_data num_items mask_prob seq_len starts w
    = (Ok losses, w') ->
  val_batches model val_data num_items mask_prob seq_len starts total w
    = (Ok (fold_left PrimFloat.add losses total), w').
Proof.
  revert total w losses. induction starts as [| i rest IH];
    intros total w losses Hl.
  - cbn in *. unfold ret in *. now injection Hl as <- <-.
  - cbn [val_batch_losses val_batches] in *.
    apply bind_inv in Hl as ([ms ls] & w1 & Hmask & Hl).
    apply bind_inv in Hl as (rest_losses & w2 & Hrest & Hret).
    unfold ret in Hret. injection Hret as <- <-.
    rewrite (bind_ok _ _ _ _ _ Hmask). cbn [fold_left].
    now apply IH.
Qed.

Lemma train_batches_total train_data num_items mask_prob seq_len
      starts model total lr w model' total' lr' w' :
  train_batches train_data num_items mask_prob seq_len starts
                model total lr w = (Ok (model', total', lr'), w') ->
  exists losses,
    train_batch_losses train_data num_items mask_prob seq_len starts model w
      = (Ok losses, w') /\
    total' = fold_left PrimFloat.add losses total /\
    length losses = length starts.
Proof.
  revert model total lr w. induction starts as [| i rest IH];
    intros model total lr w Hrun.
  - cbn in *. unfold ret in *. injection Hrun as <- <- <- <-.
    now exists [].
  - cbn [train_batches train_batch_losses] in *.
    apply bind_inv in Hrun as ([ms ls] & w1 & Hmask & Hrun).
    rewrite (bind_ok _ _ _ _ _ Hmask).
    destruct (train_step model ms ls) as [[loss new_lr] model1].
    apply IH in Hrun as (losses & Hl & Htot & Hlen).
    exists (loss :: losses). split; [| split].
    + now rewrite (bind_ok _ _ _ _ _ Hl).
    + exact Htot.
    + cbn. now rewrite Hlen.
Qed.

Lemma shuffle_length g data : len (fst (shuffle g data)) = len data.
Proof using shuffle_perm.
  unfold len. f_equal. symmetry. apply Permutation_length, shuffle_perm.
Qed.

(** *** The batches partition the dataset *)

Lemma slice_chunk {A} (data : list A) (i : Z) :
  0 < BATCH_SIZE -> 0 <= i ->
  slice data i (i + BATCH_SIZE)
  = firstn (Z.to_nat BATCH_SIZE) (skipn (Z.to_nat i) data).
Proof.
  intros HB Hi. unfold slice, norm_index.
  destruct (Z.ltb_spec i 0); [lia |].
  destruct (Z.ltb_spec (i + BATCH_SIZE) 0); [lia |].
  pose proof (len_nonneg data) as Hn. unfold len in *.
  destruct (Z.le_gt_cases i (Z.of_nat (length data))) as [Hle | Hgt].
  - rewrite (Z.min_l i) by lia.
    destruct (Z.le_gt_cases (i + BATCH_SIZE) (Z.of_nat (length data)))
      as [Hle2 | Hgt2].
    + rewrite Z.min_l by lia. f_equal. lia.
    + rewrite Z.min_r by lia.
      rewrite !firstn_all2; [reflexivity | |]; rewrite length_skipn; lia.
  - rewrite !Z.min_r by lia.
    replace (skipn (Z.to_nat i) data) with (@nil A)
      by (symmetry; apply skipn_all2; lia).
    rewrite skipn_all2 by lia. now rewrite !firstn_nil.
Qed.

Lemma chunks_concat {A} (b c : nat) (data : list A) :
  (length data <= c * b)%nat ->
  concat (map (fun k => firstn b (skipn (k * b) data)) (seq 0 c)) = data.
Proof.
  revert data. induction c as [| c IH]; intros data Hlen.
  - destruct data; [reflexivity | cbn in Hlen; lia].
  - cbn [seq map concat]. rewrite <- seq_shift, map_map.
    transitivity (firstn b data ++ skipn b data);
      [| apply firstn_skipn].
    f_equal.
    rewrite <- (IH (skipn b data))
      by (rewrite length_skipn; cbn in Hlen; lia).
    f_equal. apply map_ext. intros k.
    rewrite skipn_skipn. f_equal. f_equal. lia.
Qed.

(** X7.  Read in order, the batches [data[i:i+BATCH_SIZE]] are the dataset. *)
Lemma batches_partition (data : list (list Z)) :
  0 < BATCH_SIZE ->
  concat (map (fun i => slice data i (i + BATCH_SIZE)) (batch_offsets data))
  = data.
Proof.
  intros HB. unfold batch_offsets, range.
  destruct (Z.eqb_spec BATCH_SIZE 0); [lia |].
  rewrite map_map.
  rewrite range_count_batches by (auto using len_nonneg).
  transitivity
    (concat (map (fun k => firstn (Z.to_nat BATCH_SIZE)
                                  (skipn (k * Z.to_nat BATCH_SIZE) data))
                 (seq 0 (Z.to_nat ((len data + BATCH_SIZE - 1)
                                   / BATCH_SIZE))))).
  - f_equal. apply map_ext. intros k.
    rewrite slice_chunk by lia. f_equal. f_equal. lia.
  - apply chunks_concat.
    pose proof (len_nonneg data) as Hn. unfold len in *.
    assert (Hq : 0 <= (Z.of_nat (length data) + BATCH_SIZE - 1) / BATCH_SIZE)
      by (apply Z.div_pos; lia).
    pose proof (Z.mul_succ_div_gt
                  (Z.of_nat (length data) + BATCH_SIZE - 1) BATCH_SIZE HB).
    nia.
Qed.

(** On a non-empty dataset, with positive batch size and sequence length,
    the validation loss is computed, and nothing is written. *)
Lemma evaluate_val_loss_returns m val_data num_items mask_prob seq_len w :
  0 < BATCH_SIZE -> 0 < seq_len -> val_data <> [] ->
  exists v g,
    evaluate_val_loss m val_data num_items mask_prob seq_len w
      = (Ok v, mk_world g (out w)).
Proof.
  intros HB Hpos Hne.
  destruct (val_batch_losses_run m val_data num_items mask_prob seq_len
              (batch_offsets val_data) w Hpos)
    as (losses & g & Hlosses & _).
  unfold evaluate_val_loss.
  rewrite (bind_ok _ _ w (batch_offsets val_data) w)
    by (unfold lift; rewrite batch_offsets_range by lia; reflexivity).
  rewrite (bind_ok _ _ _ _ _
             (val_batches_total _ _ _ _ _ _ 0%float _ _ _ Hlosses)).
  unfold lift, truediv.
  destruct (Z.eqb_spec (len val_data) 0) as [Hz | Hz].
  - destruct val_data; [contradiction | discriminate].
  - eauto.
Qed.

(** On the empty dataset the division of line 59 is [0 / 0]. *)
Lemma evaluate_val_loss_nil m num_items mask_prob seq_len w :
  BATCH_SIZE <> 0 ->
  evaluate_val_loss m [] num_items mask_prob seq_len w
    = (Raise ZeroDivisionError, w).
Proof.
  intros HB. unfold evaluate_val_loss, bind, lift, range.
  destruct (Z.eqb_spec BATCH_SIZE 0); [contradiction |].
  replace (range_count 0 (len []) BATCH_SIZE) with 0
    by (unfold range_count, len; cbn;
        destruct (0 <? BATCH_SIZE); reflexivity).
  reflexivity.
Qed.

(** ** One epoch *)

Lemma lift_inv {A} (x : res A) w a w' :
  lift x w = (Ok a, w') -> x = Ok a /\ w' = w.
Proof. unfold lift. intros H. injection H as -> <-. auto. Qed.

Lemma emit_inv ev w u w' :
  emit ev w = (Ok u, w') -> w' = mk_world (rng w) (out w ++ [ev]).
Proof. unfold emit. intros H. now injection H as _ <-. Qed.

Lemma batch_offsets_of_range data starts :
  range 0 (len data) BATCH_SIZE = Ok starts -> batch_offsets data = starts.
Proof. intros H. unfold batch_offsets. now rewrite H. Qed.

(** Everything an epoch that ran to its end has done: the training losses
    it summed, the record it appended, the decision it took and what it
    wrote. *)
Lemma epoch_body_inv val_data num_items mask_prob model_name seq_len
      e s w s' stop w' :
  epoch_body val_data num_items mask_prob model_name seq_len e s w
    = (Ok (s', stop), w') ->
  exists entry losses wl,
    train_data s' = fst (shuffle (rng w) (train_data s)) /\
    train_batch_losses (train_data s') num_items mask_prob seq_len
        (batch_offsets (train_data s')) (model s)
        (mk_world (snd (shuffle (rng w) (train_data s)))
                  (out w ++ [EvEpoch e]))
      = (Ok losses, wl) /\
    length losses = length (batch_offsets (train_data s')) /\
    truediv (fsum losses) (len (train_data s')) = Ok (train_loss entry) /\
    epoch entry = e /\
    history s' = history s ++ [entry] /\
    (if improved (val_ndcg entry) (best_ndcg s)
     then best_ndcg s' = val_ndcg entry /\
          patience_counter s' = 0 /\
          stop = false /\
          out w' = out w ++ EvEpoch e :: checkpoint_events model_name (model s')
     else best_ndcg s' = best_ndcg s /\
          patience_counter s' = patience_counter s + 1 /\
          stop = (patience_counter s + 1 >=? PATIENCE) /\
          out w' = out w ++ EvEpoch e ::
                     (if stop then [EvEarlyStop] else [])).
Proof.
  unfold epoch_body. intros H.
  apply bind_inv in H as (shuffled & w1 & Hsh & H).
  unfold do_shuffle in Hsh.
  destruct (shuffle (rng w) (train_data s)) as [sh g1] eqn:Hshuf.
  injection Hsh as <- <-.
  apply bind_inv in H as (starts & w2 & Hrange & H).
  apply lift_inv in Hrange as [Hrange ->].
  apply batch_offsets_of_range in Hrange. subst starts.
  apply bind_inv in H as ([] & w3 & Hemit & H).
  apply emit_inv in Hemit. cbn [rng out] in Hemit. subst w3.
  apply bind_inv in H as ([[model1 total] lr1] & w4 & Htrain & H).
  pose proof (appends_nothing _ _ _ _
                (appends_train_batches _ _ _ _ _ _ _ _ _) Htrain) as Hout4.
  apply train_batches_total in Htrain as (losses & Hlosses & Htotal & Hlen).
  apply bind_inv in H as (vloss & w5 & Hval & H).
  pose proof (appends_nothing _ _ _ _
                (appends_evaluate_val_loss _ _ _ _ _ _) Hval) as Hout5.
  apply bind_inv in H as ([ndcg recall] & w5' & Heval & H).
  pose proof (appends_nothing _ _ _ _
                (appends_do_evaluate _ _ _ _) Heval) as Hout5'.
  apply bind_inv in H as (mean & w6 & Hmean & H).
  apply lift_inv in Hmean as [Hmean ->].
  apply bind_inv in H as (lr_seen & w7 & Hlr & H).
  apply lift_inv in Hlr as [Hlr ->].
  assert (Hout : out w5' = out w ++ [EvEpoch e]).
  { rewrite Hout5', Hout5, Hout4. reflexivity. }
  exists (mk_log_entry e mean vloss ndcg recall lr_seen), losses, w4.
  unfold improved. cbn [val_ndcg epoch train_loss].
  destruct (gtb ndcg (PrimFloat.add (best_ndcg s) 1e-4%float)).
  - apply bind_inv in H as ([] & w8 & Hsave & H).
    unfold ret in H. injection H as <- <- <-. cbn.
    repeat split; try assumption; try reflexivity.
    + unfold fsum. now rewrite <- Htotal.
    + unfold checkpoint_events.
      destruct (truthy model_name).
      * destruct model_name as [name |].
        -- apply save_checkpoint_inv in Hsave. subst w8. cbn [out].
           rewrite Hout, <- app_assoc. reflexivity.
        -- unfold save_checkpoint, ret in Hsave. injection Hsave as <-.
           exact Hout.
      * unfold ret in Hsave. injection Hsave as <-. exact Hout.
  - destruct (patience_counter s + 1 >=? PATIENCE).
    + apply bind_inv in H as ([] & w8 & Hstop & H).
      apply emit_inv in Hstop. subst w8.
      unfold ret in H. injection H as <- <- <-. cbn.
      repeat split; try assumption; try reflexivity.
      * unfold fsum. now rewrite <- Htotal.
      * rewrite Hout, <- app_assoc. reflexivity.
    + unfold ret in H. injection H as <- <- <-. cbn.
      repeat split; try assumption; try reflexivity.
      unfold fsum. now rewrite <- Htotal.
Qed.



Lemma checkpoints_app (evs1 evs2 : list (event Model)) :
  checkpoints (evs1 ++ evs2) = checkpoints evs1 ++ checkpoints evs2.
Proof. apply filter_app. Qed.

Lemma checkpoints_none model_name (evs : list (event Model)) :
  truthy model_name = false ->
  Forall (epoch_event model_name) evs -> checkpoints evs = [].
Proof.
  intros Hf. induction 1 as [| ev evs Hev _ IH]; [reflexivity |].
  cbn. destruct ev; cbn in *; try assumption. congruence.
Qed.

Lemma checkpoint_events_saves model_name (m : Model) :
  checkpoints (checkpoint_events model_name m)
  = checkpoint_events model_name m.
Proof.
  unfold checkpoint_events.
  destruct (truthy model_name); [| reflexivity].
  destruct model_name; reflexivity.
Qed.

(** C3, as the code has it.  In every epoch that runs to its end, a
    checkpoint is written if and only if [val_ndcg > best_ndcg + 1e-4] and
    [model_name] is a non-empty string.  When the test holds the best value
    becomes [val_ndcg] and the stall counter becomes [0]; when it fails no
    checkpoint is written, the best value stays and the stall counter grows
    by [1]. *)
Theorem checkpoint_iff_improved_and_named
        val_data num_items mask_prob model_name seq_len e s w s' stop w' :
  epoch_body val_data num_items mask_prob model_name seq_len e s w
    = (Ok (s', stop), w') ->
  exists entry,
    history s' = history s ++ [entry] /\
    checkpoints (out w')
      = checkpoints (out w) ++
        (if improved (val_ndcg entry) (best_ndcg s) && truthy model_name
         then checkpoint_events model_name (model s') else []) /\
    ((exists path, checkpoints (out w')
                   = checkpoints (out w) ++ [EvSave path (model s')]) <->
     improved (val_ndcg entry) (best_ndcg s) = true /\
     truthy model_name = true) /\
    (improved (val_ndcg entry) (best_ndcg s) = true ->
       best_ndcg s' = val_ndcg entry /\ patience_counter s' = 0) /\
    (improved (val_ndcg entry) (best_ndcg s) = false ->
       checkpoints (out w') = checkpoints (out w) /\
       best_ndcg s' = best_ndcg s /\
       patience_counter s' = patience_counter s + 1).
Proof.
  intros H.
  apply epoch_body_inv in H
    as (entry & losses & wl & _ & _ & _ & _ & _ & Hhist & Hdec).
  exists entry. split; [assumption |].
  assert (Hcp : checkpoints (out w')
                = checkpoints (out w) ++
                  (if improved (val_ndcg entry) (best_ndcg s)
                      && truthy model_name
                   then checkpoint_events model_name (model s') else [])).
  { destruct (improved (val_ndcg entry) (best_ndcg s)).
    - destruct Hdec as (_ & _ & _ & ->).
      rewrite checkpoints_app. cbn [checkpoints filter is_save andb].
      fold (checkpoints (checkpoint_events model_name (model s'))).
      rewrite checkpoint_events_saves.
      unfold checkpoint_events. now destruct (truthy model_name).
    - destruct Hdec as (_ & _ & _ & ->).
      rewrite checkpoints_app. cbn [andb]. f_equal.
      now destruct stop. }
  split; [exact Hcp | split; [| split]].
  - rewrite Hcp. split.
    + intros (path & Heq). apply app_inv_head in Heq.
      destruct (improved (val_ndcg entry) (best_ndcg s));
        destruct (truthy model_name); cbn in Heq; try discriminate; auto.
    + intros [-> Ht]. rewrite Ht. cbn [andb]. unfold checkpoint_events.
      rewrite Ht. destruct model_name as [name |]; [| discriminate].
      now exists (path_join "models" name).
  - intros Hi. rewrite Hi in Hdec. destruct Hdec as (Hb & Hc & _).
    now split.
  - intros Hi. rewrite Hi in Hdec, Hcp. cbn in Hcp.
    rewrite app_nil_r in Hcp. destruct Hdec as (Hb & Hc & _).
    now repeat split.
Qed.

(** ** The whole run *)

(** What a run may write: what its epochs write, and the history file. *)
Lemma appends_train_model model0 train val num_items mask_prob model_name
      result_name epochs seq_len :
  appends (fun ev => is_save ev = true -> truthy model_name = true)
          (train_model model0 train val num_items mask_prob model_name
                       result_name epochs seq_len).
Proof.
  unfold train_model.
  apply appends_bind; [apply appends_lift |]. intros es.
  apply appends_bind.
  - eapply appends_weaken; [| apply appends_epoch_loop].
    intros [] Hev; cbn in *; intros; try discriminate; assumption.
  - intros s. apply appends_bind; [apply appends_do_io |]. intros _.
    apply appends_bind; [apply appends_lift |]. intros path.
    apply appends_bind; [apply appends_do_io |]. intros _.
    apply appends_bind; [| intros; apply appends_ret].
    apply appends_emit. cbn. discriminate.
Qed.

Lemma checkpoints_unnamed (evs : list (event Model)) :
  Forall (fun ev => is_save ev = true -> truthy None = true) evs ->
  checkpoints evs = [].
Proof.
  induction 1 as [| ev evs Hev _ IH]; [reflexivity |].
  cbn. destruct (is_save ev) eqn:Hs; [| assumption].
  specialize (Hev eq_refl). discriminate.
Qed.

Lemma train_model_unnamed_checkpoints model0 train val num_items mask_prob
      result_name epochs seq_len w :
  checkpoints (out (snd (train_model model0 train val num_items mask_prob
                                     None result_name epochs seq_len w)))
  = checkpoints (out w).
Proof.
  destruct (train_model model0 train val num_items mask_prob None
                        result_name epochs seq_len w) as [r w'] eqn:Hrun.
  destruct (appends_train_model _ _ _ _ _ _ _ _ _ _ _ _ Hrun)
    as (evs & Hout & Hall).
  cbn [snd]. rewrite Hout, checkpoints_app, (checkpoints_unnamed evs Hall).
  apply app_nil_r.
Qed.

(** C9.  Without a [model_name] (the default [None], which is what the
    script passes) no run of [train_model] writes a checkpoint, however it
    ends; an epoch that improves still sets the best value and resets the
    stall counter, and one that does not still increments the counter. *)
Theorem no_checkpoint_without_model_name :
  (forall model0 train val num_items mask_prob result_name epochs seq_len w,
      checkpoints
        (out (snd (train_model model0 train val num_items mask_prob None
                               result_name epochs seq_len w)))
      = checkpoints (out w)) /\
  (forall fs w, checkpoints (out (snd (main fs w))) = checkpoints (out w)) /\
  (forall val_data num_items mask_prob seq_len e s w s' stop w',
      epoch_body val_data num_items mask_prob None seq_len e s w
        = (Ok (s', stop), w') ->
      exists entry,
        history s' = history s ++ [entry] /\
        checkpoints (out w') = checkpoints (out w) /\
        (improved (val_ndcg entry) (best_ndcg s) = true ->
           best_ndcg s' = val_ndcg entry /\ patience_counter s' = 0) /\
        (improved (val_ndcg entry) (best_ndcg s) = false ->
           best_ndcg s' = best_ndcg s /\
           patience_counter s' = patience_counter s + 1)).
Proof.
  split; [| split].
  - intros. apply train_model_unnamed_checkpoints.
  - intros fs w. unfold main, bind, lift.
    destruct (load_processed_data fs PROCESSED_DIR)
      as [[[[train val] test] num_items] | e]; [| reflexivity].
    apply train_model_unnamed_checkpoints.
  - intros val_data num_items mask_prob seq_len e s w s' stop w' H.
    apply epoch_body_inv in H
      as (entry & losses & wl & _ & _ & _ & _ & _ & Hhist & Hdec).
    exists entry. split; [assumption |].
    destruct (improved (val_ndcg entry) (best_ndcg s)).
    + destruct Hdec as (Hb & Hc & _ & Hout). split; [| split].
      * rewrite Hout, checkpoints_app. cbn. apply app_nil_r.
      * auto.
      * discriminate.
    + destruct Hdec as (Hb & Hc & _ & Hout). split; [| split].
      * rewrite Hout, checkpoints_app.
        destruct stop; cbn; apply app_nil_r.
      * discriminate.
      * auto.
Qed.

Lemma epochs_run_app (evs1 evs2 : list (event Model)) :
  epochs_run (evs1 ++ evs2) = epochs_run evs1 ++ epochs_run evs2.
Proof. apply flat_map_app. Qed.

Lemma epochs_run_epoch e (evs : list (event Model)) :
  epochs_run (EvEpoch e :: evs) = e :: epochs_run evs.
Proof. reflexivity. Qed.

Lemma epochs_run_checkpoint_events model_name (m : Model) :
  epochs_run (checkpoint_events model_name m) = [].
Proof.
  unfold checkpoint_events. destruct (truthy model_name); [| reflexivity].
  destruct model_name; reflexivity.
Qed.

(** The loop appends one record per epoch it enters, in the order of the
    epoch numbers it was given, and enters a prefix of them. *)
Lemma epoch_loop_history val_data num_items mask_prob model_name seq_len
      es s w s' w' :
  epoch_loop val_data num_items mask_prob model_name seq_len es s w
    = (Ok s', w') ->
  exists entries evs,
    history s' = history s ++ entries /\
    out w' = out w ++ evs /\
    map epoch entries = firstn (length entries) es /\
    epochs_run evs = map epoch entries /\
    (forall p h, ~ In (EvDump p h) evs).
Proof.
  revert s w. induction es as [| e rest IH]; intros s w H; cbn [epoch_loop] in H.
  - unfold ret in H. injection H as <- <-.
    exists [], []. rewrite !app_nil_r. cbn. repeat split; auto.
  - apply bind_inv in H as ([s1 stop] & w1 & Hbody & H).
    pose proof (appends_epoch_body _ _ _ _ _ _ _ _ _ _ Hbody)
      as (evs0 & _ & Hall0).
    apply epoch_body_inv in Hbody
      as (entry & losses & wl & _ & _ & _ & _ & Hep & Hhist & Hdec).
    assert (Hev : exists tail, out w1 = out w ++ EvEpoch e :: tail /\
                               epochs_run tail = [] /\
                               forall p h, ~ In (EvDump p h) tail).
    { destruct (improved (val_ndcg entry) (best_ndcg s)).
      - destruct Hdec as (_ & _ & _ & Hout). eexists. split; [exact Hout |].
        split; [apply epochs_run_checkpoint_events |].
        intros p h. unfold checkpoint_events.
        destruct (truthy model_name); [| auto].
        destruct model_name; cbn; [| auto]. intros [Hc | []]. discriminate.
      - destruct Hdec as (_ & _ & _ & Hout). eexists. split; [exact Hout |].
        destruct stop; cbn; split; auto; intros p h [Hc | []]. discriminate. }
    destruct Hev as (tail & Hout1 & Htail & Hnd).
    destruct stop.
    + unfold ret in H. injection H as <- <-.
      exists [entry], (EvEpoch e :: tail).
      split; [assumption | split; [assumption | split; [| split]]].
      * cbn. now rewrite Hep.
      * rewrite epochs_run_epoch, Htail. cbn. now rewrite Hep.
      * intros p h [Hc | Hin]; [discriminate | now apply (Hnd p h)].
    + apply IH in H as (entries & evs & Hh & Ho & Hm & Hr & Hd).
      exists (entry :: entries), (EvEpoch e :: tail ++ evs).
      split; [| split; [| split; [| split]]].
      * rewrite Hh, Hhist, <- app_assoc. reflexivity.
      * rewrite Ho, Hout1, <- app_assoc. reflexivity.
      * cbn. now rewrite Hep, Hm.
      * rewrite epochs_run_epoch, epochs_run_app, Htail, Hr. cbn.
        now rewrite Hep.
      * intros p h [Hc | Hin]; [discriminate |].
        apply in_app_or in Hin as [Hin | Hin];
          [now apply (Hnd p h) | now apply (Hd p h)].
Qed.

Lemma range_from_one epochs :
  range 1 (epochs + 1) 1
  = Ok (map (fun k => Z.of_nat k + 1) (seq 0 (Z.to_nat epochs))).
Proof.
  unfold range. cbn [Z.eqb]. f_equal.
  replace (Z.to_nat (range_count 1 (epochs + 1) 1)) with (Z.to_nat epochs).
  - apply map_ext. intros k. lia.
  - unfold range_count. cbn [Z.ltb Z.compare].
    destruct (Z.ltb_spec 1 (epochs + 1)).
    + rewrite Z.div_1_r. lia.
    + lia.
Qed.

Lemma nth_error_firstn_range (n c i : nat) x :
  nth_error (firstn n (map (fun k => Z.of_nat k + 1) (seq 0 c))) i = Some x ->
  x = Z.of_nat i + 1.
Proof.
  intros H.
  assert (Hi : (i < n)%nat).
  { destruct (Nat.lt_ge_cases i n) as [Hlt | Hge]; [assumption |].
    assert (Hnone : nth_error
              (firstn n (map (fun k => Z.of_nat k + 1) (seq 0 c))) i = None).
    { apply nth_error_None. rewrite length_firstn. lia. }
    congruence. }
  rewrite nth_error_firstn in H.
  destruct (Nat.ltb_spec i n); [| lia].
  rewrite nth_error_map in H.
  destruct (nth_error (seq 0 c) i) as [k |] eqn:Hk; [| discriminate].
  cbn in H. injection H as <-.
  rewrite nth_error_seq in Hk.
  destruct (Nat.ltb_spec i c); [| discriminate]. injection Hk as <-. lia.
Qed.

(** A run that returns has left its epoch loop with locals [s], then written
    the history of [s] to the results file, and returns that history. *)
Lemma train_model_inv model0 train val num_items mask_prob model_name
      result_name epochs seq_len w hist w' :
  train_model model0 train val num_items mask_prob model_name result_name
              epochs seq_len w = (Ok hist, w') ->
  exists s w2 name,
    epoch_loop val num_items mask_prob model_name seq_len
               (map (fun k => Z.of_nat k + 1) (seq 0 (Z.to_nat epochs)))
               (mk_locals model0 train [] 0%float 0 None) w
      = (Ok s, w2) /\
    result_name = Some name /\
    hist = history s /\
    w' = mk_world (rng w2)
           (out w2 ++ [EvDump (path_join "results" name) (history s)]).
Proof.
  intros H. unfold train_model in H.
  apply bind_inv in H as (es & w1 & Hrange & H).
  apply lift_inv in Hrange as [Hrange ->].
  rewrite range_from_one in Hrange. injection Hrange as <-.
  apply bind_inv in H as (s & w2 & Hloop & H).
  apply bind_inv in H as (u1 & w3 & Hmk & H).
  apply do_io_inv in Hmk as [-> _].
  apply bind_inv in H as (path & w4 & Hpath & H).
  apply lift_inv in Hpath as [Hpath ->].
  destruct result_name as [name |]; [| discriminate].
  injection Hpath as <-.
  apply bind_inv in H as (u2 & w5 & Hwr & H).
  apply do_io_inv in Hwr as [-> _].
  apply bind_inv in H as (u3 & w6 & Hemit & H).
  apply emit_inv in Hemit. subst w6.
  unfold ret in H. injection H as <- <-.
  exists s, w2, name. repeat split. exact Hloop.
Qed.

(** C7.  For a non-negative epoch budget, the history [train_model]
    returns is the one it writes to the results file; it holds one record
    per epoch run, at most [epochs] of them, and record number [i]
    (counting from [0]) carries the epoch index [i + 1]. *)
Theorem history_one_record_per_epoch
        model0 train val num_items mask_prob model_name result_name
        epochs seq_len w hist w' :
  0 <= epochs ->
  train_model model0 train val num_items mask_prob model_name result_name
              epochs seq_len w = (Ok hist, w') ->
  exists evs path,
    out w' = out w ++ evs ++ [EvDump path hist] /\
    (forall p h, ~ In (EvDump p h) evs) /\
    len hist = len (epochs_run evs) /\
    len hist <= epochs /\
    (forall i entry,
        nth_error hist i = Some entry -> epoch entry = Z.of_nat i + 1).
Proof.
  intros Hnn H.
  apply train_model_inv in H as (s & w2 & name & Hloop & _ & -> & ->).
  apply epoch_loop_history in Hloop
    as (entries & evs & Hhist & Hout & Hmap & Hrun & Hnd).
  cbn [history app] in Hhist.
  rewrite Hhist.
  exists evs, (path_join "results" name). cbn [out].
  split; [| split; [assumption | split; [| split]]].
  - rewrite Hout, <- app_assoc. reflexivity.
  - unfold len. now rewrite Hrun, length_map.
  - assert (Hle : (length entries <= Z.to_nat epochs)%nat).
    { apply (f_equal (@length Z)) in Hmap.
      rewrite length_map, length_firstn, length_map, length_seq in Hmap.
      lia. }
    unfold len. lia.
  - intros i entry Hnth.
    apply (nth_error_firstn_range (length entries) (Z.to_nat epochs)).
    rewrite <- Hmap, nth_error_map, Hnth. reflexivity.
Qed.

(** ** Early stopping *)

Lemma early_stop_not_in_checkpoint_events model_name (m : Model) :
  ~ In EvEarlyStop (checkpoint_events model_name m).
Proof.
  unfold checkpoint_events. destruct (truthy model_name); [| auto].
  destruct model_name; cbn; [| auto]. intros [H | []]. discriminate.
Qed.

(** How the loop ends when it starts below the patience threshold: either
    it runs every epoch it was given and the counter stays below the
    threshold throughout, or it stops in the epoch whose counter is the
    threshold, which no earlier epoch reached. *)
Lemma epoch_loop_patience val_data num_items mask_prob model_name seq_len
      es s w s' w' :
  1 <= PATIENCE ->
  patience_counter s < PATIENCE ->
  epoch_loop val_data num_items mask_prob model_name seq_len es s w
    = (Ok s', w') ->
  exists entries evs,
    history s' = history s ++ entries /\
    out w' = out w ++ evs /\
    ((~ In EvEarlyStop evs /\
      length entries = length es /\
      Forall (fun c => c < PATIENCE)
             (stall_counters (best_ndcg s) (patience_counter s)
                             (map val_ndcg entries)))
     \/
     (In EvEarlyStop evs /\
      exists before,
        stall_counters (best_ndcg s) (patience_counter s)
                       (map val_ndcg entries) = before ++ [PATIENCE] /\
        Forall (fun c => c < PATIENCE) before)).
Proof.
  intros HP. revert s w.
  induction es as [| e rest IH]; intros s w Hlt H; cbn [epoch_loop] in H.
  - unfold ret in H. injection H as <- <-.
    exists [], []. rewrite !app_nil_r. split; [reflexivity |].
    split; [reflexivity |]. left. cbn. auto.
  - apply bind_inv in H as ([s1 stop] & w1 & Hbody & H).
    apply epoch_body_inv in Hbody
      as (entry & losses & wl & _ & _ & _ & _ & _ & Hhist & Hdec).
    destruct (improved (val_ndcg entry) (best_ndcg s)) eqn:Himp.
    + destruct Hdec as (Hb & Hc & -> & Hout).
      apply IH in H as (entries & evs & Hh & Ho & Hend); [| lia].
      exists (entry :: entries),
             (EvEpoch e :: checkpoint_events model_name (model s1) ++ evs).
      split; [rewrite Hh, Hhist, <- app_assoc; reflexivity |].
      split; [rewrite Ho, Hout, <- app_assoc; reflexivity |].
      cbn [map stall_counters]. rewrite Himp.
      rewrite Hb, Hc in Hend.
      destruct Hend as [(Hno & Hlen & Hall) | (Hyes & before & Hcs & Hall)].
      * left. split; [| split].
        -- intros [Hc0 | Hin]; [discriminate |].
           apply in_app_or in Hin as [Hin | Hin]; [| auto].
           now apply early_stop_not_in_checkpoint_events in Hin.
        -- cbn. now rewrite Hlen.
        -- constructor; [lia | assumption].
      * right. split.
        -- right. apply in_or_app. now right.
        -- exists (0 :: before). rewrite Hcs. split; [reflexivity |].
           constructor; [lia | assumption].
    + destruct Hdec as (Hb & Hc & Hstop & Hout).
      destruct stop.
      * unfold ret in H. injection H as <- <-.
        exists [entry], [EvEpoch e; EvEarlyStop].
        split; [assumption | split; [assumption |]].
        right. split; [cbn; auto |].
        exists []. cbn [map stall_counters]. rewrite Himp.
        split; [| constructor]. cbn.
        symmetry in Hstop. apply Z.geb_le in Hstop.
        f_equal. lia.
      * assert (Hbelow : patience_counter s + 1 < PATIENCE).
        { destruct (Z.geb_spec (patience_counter s + 1) PATIENCE);
            [discriminate | lia]. }
        clear Hstop.
        apply IH in H as (entries & evs & Hh & Ho & Hend); [| lia].
        exists (entry :: entries), (EvEpoch e :: evs).
        split; [rewrite Hh, Hhist, <- app_assoc; reflexivity |].
        split; [rewrite Ho, Hout, <- app_assoc; reflexivity |].
        cbn [map stall_counters]. rewrite Himp.
        rewrite Hb, Hc in Hend.
        destruct Hend as [(Hno & Hlen & Hall) | (Hyes & before & Hcs & Hall)].
        -- left. split; [| split].
           ++ intros [Hc0 | Hin]; [discriminate | auto].
           ++ cbn. now rewrite Hlen.
           ++ constructor; assumption.
        -- right. split; [now right |].
           exists ((patience_counter s + 1) :: before). rewrite Hcs.
           split; [reflexivity |]. constructor; assumption.
Qed.

Lemma stall_counters_length best counter vals :
  length (stall_counters best counter vals) = length vals.
Proof.
  revert best counter. induction vals as [| v rest IH]; intros best counter;
    cbn [stall_counters]; [reflexivity |].
  destruct (improved v best); cbn [length]; now rewrite IH.
Qed.

(** C4.  With a patience of at least one epoch, early stopping fires in a
    run exactly when the stall counter reaches [PATIENCE]: the counter
    never exceeds it, the epoch in which it equals [PATIENCE] is the last
    one in the history, and a run that did not stop early ran every epoch
    of its budget. *)
Theorem early_stop_exactly_at_patience
        model0 train val num_items mask_prob model_name result_name
        epochs seq_len w hist w' :
  1 <= PATIENCE ->
  train_model model0 train val num_items mask_prob model_name result_name
              epochs seq_len w = (Ok hist, w') ->
  exists evs,
    out w' = out w ++ evs /\
    (In EvEarlyStop evs <-> In PATIENCE (history_counters hist)) /\
    (forall i c,
        nth_error (history_counters hist) i = Some c ->
        c <= PATIENCE /\ (c = PATIENCE -> S i = length hist)) /\
    (~ In EvEarlyStop evs -> length hist = Z.to_nat epochs).
Proof.
  intros HP H.
  apply train_model_inv in H as (s & w2 & name & Hloop & _ & -> & ->).
  apply epoch_loop_patience in Hloop
    as (entries & evs & Hhist & Hout & Hend); [| assumption | cbn; lia].
  cbn [history app best_ndcg patience_counter] in Hhist, Hend.
  rewrite Hhist. unfold history_counters.
  set (path := path_join "results" name).
  exists (evs ++ [EvDump path entries]). cbn [out].
  split; [rewrite Hout, <- app_assoc; reflexivity |].
  assert (Hin : In EvEarlyStop (evs ++ [EvDump path entries])
                <-> In EvEarlyStop evs).
  { rewrite in_app_iff. cbn. split; [| auto].
    intros [Hi | [Hc | []]]; [assumption | discriminate]. }
  rewrite Hin.
  destruct Hend as [(Hno & Hlen & Hall) | (Hyes & before & Hcs & Hall)].
  - split; [| split].
    + split; [contradiction |]. intros Hp.
      rewrite Forall_forall in Hall. apply Hall in Hp. lia.
    + intros i c Hnth. apply nth_error_In in Hnth.
      rewrite Forall_forall in Hall. apply Hall in Hnth. lia.
    + intros _. rewrite Hlen, length_map, length_seq. reflexivity.
  - split; [| split].
    + split; [| auto]. intros _. rewrite Hcs. apply in_or_app. cbn. auto.
    + intros i c Hnth.
      assert (Hlen : length entries = S (length before)).
      { rewrite <- (length_map val_ndcg entries).
        rewrite <- (stall_counters_length 0%float 0 (map val_ndcg entries)).
        rewrite Hcs, length_app. cbn. lia. }
      rewrite Hcs in Hnth.
      destruct (Nat.lt_ge_cases i (length before)) as [Hi | Hi].
      * rewrite nth_error_app1 in Hnth by assumption.
        apply nth_error_In in Hnth.
        rewrite Forall_forall in Hall. apply Hall in Hnth. lia.
      * rewrite nth_error_app2 in Hnth by assumption.
        destruct (i - length before)%nat as [| k] eqn:Hk.
        -- cbn in Hnth. injection Hnth as <-. split; [lia |].
           intros _. lia.
        -- cbn in Hnth. destruct k; discriminate.
    + contradiction.
Qed.

(** ** Batches that run, data that stays *)

Lemma train_batches_run train_data num_items mask_prob seq_len starts
      m total lr w :
  0 < seq_len ->
  exists m' total' lr' g,
    train_batches train_data num_items mask_prob seq_len starts m total lr w
      = (Ok (m', total', lr'), mk_world g (out w)) /\
    (starts <> [] \/ lr <> None -> lr' <> None).
Proof.
  intros Hpos. revert m total lr w.
  induction starts as [| i rest IH]; intros m total lr w.
  - exists m, total, lr, (rng w). destruct w. split; [reflexivity |].
    intros [H | H]; [contradiction | assumption].
  - cbn [train_batches].
    destruct (mask_items_run (slice train_data i (i + BATCH_SIZE))
                num_items mask_prob seq_len w Hpos)
      as (ms & ls & g1 & Hmask & _).
    rewrite (bind_ok _ _ _ _ _ Hmask).
    destruct (train_step m ms ls) as [[loss new_lr] m1].
    destruct (IH m1 (PrimFloat.add total loss) (Some new_lr)
                 (mk_world g1 (out w)))
      as (m' & total' & lr' & g & Hrun & Hlr).
    exists m', total', lr', g. split; [exact Hrun |].
    intros _. apply Hlr. right. discriminate.
Qed.

Lemma batch_offsets_nonempty (data : list (list Z)) :
  0 < BATCH_SIZE -> data <> [] -> batch_offsets data <> [].
Proof.
  intros HB Hne Hnil.
  pose proof (batch_offsets_count data HB) as Hc.
  rewrite Hnil in Hc. cbn in Hc.
  assert (Hn : 1 <= len data)
    by (destruct data; [contradiction | unfold len; cbn; lia]).
  assert (Hq : 1 <= (len data + BATCH_SIZE - 1) / BATCH_SIZE).
  { apply Z.div_le_lower_bound; lia. }
  lia.
Qed.

Lemma shuffle_nonempty g (data : list (list Z)) :
  data <> [] -> fst (shuffle g data) <> [].
Proof using shuffle_perm.
  intros Hne Hnil. pose proof (shuffle_perm g data) as Hp.
  rewrite Hnil in Hp. apply Permutation_sym, Permutation_nil in Hp.
  contradiction.
Qed.

(** With a positive batch size and sequence length, non-empty training and
    validation data and a file system that takes every call, an epoch runs
    to its end. *)
Lemma epoch_body_returns val_data num_items mask_prob model_name seq_len
      e s w :
  0 < BATCH_SIZE -> 0 < seq_len ->
  train_data s <> [] -> val_data <> [] ->
  (forall op written, io_error op written = None) ->
  exists s' stop w',
    epoch_body val_data num_items mask_prob model_name seq_len e s w
      = (Ok (s', stop), w') /\
    train_data s' <> [].
Proof using shuffle_perm.
  intros HB Hpos Htrain Hval Hio. unfold epoch_body.
  pose proof (shuffle_nonempty (rng w) (train_data s) Htrain) as Hsh.
  unfold bind at 1. unfold do_shuffle.
  destruct (shuffle (rng w) (train_data s)) as [sh g1]. cbn [fst] in Hsh.
  rewrite (bind_ok _ _ _ (batch_offsets sh) (mk_world g1 (out w)))
    by (unfold lift; rewrite batch_offsets_range by lia; reflexivity).
  unfold bind at 1. unfold emit at 1. cbn [rng out].
  destruct (train_batches_run sh num_items mask_prob seq_len
              (batch_offsets sh) (model s) 0%float (current_lr s)
              (mk_world g1 (out w ++ [EvEpoch e])) Hpos)
    as (m1 & total & lr1 & g2 & Htb & Hlr).
  rewrite (bind_ok _ _ _ _ _ Htb).
  destruct (evaluate_val_loss_returns m1 val_data num_items mask_prob
              seq_len
              (mk_world g2 (out (mk_world g1 (out w ++ [EvEpoch e]))))
              HB Hpos Hval)
    as (vloss & g3 & Hvl).
  rewrite (bind_ok _ _ _ _ _ Hvl).
  unfold bind at 1. unfold do_evaluate.
  destruct (evaluate_model m1 val_data num_items
              (rng (mk_world g3 (out (mk_world g2
                 (out (mk_world g1 (out w ++ [EvEpoch e]))))))))
    as [[ndcg recall] g4].
  unfold bind at 1. unfold lift at 1. unfold truediv.
  destruct (Z.eqb_spec (len sh) 0) as [Hz | Hz];
    [destruct sh; [contradiction | discriminate] |].
  destruct lr1 as [lr_seen |];
    [| exfalso; apply Hlr; [left; now apply batch_offsets_nonempty
                           | reflexivity]].
  unfold bind at 1. unfold lift at 1. cbn [read_local].
  destruct (gtb ndcg (PrimFloat.add (best_ndcg s) 1e-4%float)).
  - destruct (truthy model_name).
    + destruct model_name as [name |]; cbn [save_checkpoint];
        unfold bind, do_io, emit, ret; rewrite ?Hio; cbn [out];
        rewrite ?Hio; eauto.
    + unfold bind, ret; eauto.
  - destruct (patience_counter s + 1 >=? PATIENCE);
      unfold bind, emit, ret; eauto.
Qed.

Lemma epoch_loop_returns val_data num_items mask_prob model_name seq_len
      es s w :
  0 < BATCH_SIZE -> 0 < seq_len ->
  train_data s <> [] -> val_data <> [] ->
  (forall op written, io_error op written = None) ->
  exists s' w',
    epoch_loop val_data num_items mask_prob model_name seq_len es s w
      = (Ok s', w').
Proof using shuffle_perm.
  intros HB Hpos Htrain Hval Hio. revert s w Htrain.
  induction es as [| e rest IH]; intros s w Htrain; cbn [epoch_loop].
  - unfold ret. eauto.
  - destruct (epoch_body_returns val_data num_items mask_prob model_name
                seq_len e s w HB Hpos Htrain Hval Hio)
      as (s1 & stop & w1 & Hbody & Hne).
    rewrite (bind_ok _ _ _ _ _ Hbody).
    destruct stop; [unfold ret; eauto | now apply IH].
Qed.


(** ** More on padding *)

Lemma last_app_nonempty {A} (l1 l2 : list A) d :
  l2 <> [] -> last (l1 ++ l2) d = last l2 d.
Proof.
  intros Hne. induction l1 as [| x l1 IH]; [reflexivity |].
  cbn [app]. destruct (l1 ++ l2) eqn:Heq.
  - apply app_eq_nil in Heq as [_ H]. contradiction.
  - rewrite <- Heq in *. cbn [last]. rewrite Heq, <- Heq. exact IH.
Qed.

Lemma last_skipn {A} (k : nat) (l : list A) d :
  (k < length l)%nat -> last (skipn k l) d = last l d.
Proof.
  intros Hk. rewrite <- (firstn_skipn k l) at 2.
  symmetry. apply last_app_nonempty.
  intros Hnil. apply (f_equal (@length A)) in Hnil.
  rewrite length_skipn in Hnil. cbn in Hnil. lia.
Qed.

(** X1.  A [max_len] that is not positive does not give an empty row:
    [seq[-max_len:]] drops the first [-max_len] items and keeps the rest, so
    [max_len = 0] returns the sequence as it is. *)
Theorem pad_sequence_nonpositive (s : list Z) (max_len : Z) :
  max_len <= 0 ->
  pad_sequence s max_len = skipn (Z.to_nat (- max_len)) s /\
  (max_len = 0 -> pad_sequence s max_len = s).
Proof.
  intros Hle.
  assert (Hpad : pad_sequence s max_len = skipn (Z.to_nat (- max_len)) s).
  { unfold pad_sequence, slice_from, norm_index.
    pose proof (len_nonneg s) as Hn.
    destruct (Z.geb_spec (len s) max_len); [| lia].
    destruct (Z.ltb_spec (- max_len) 0); [lia |].
    destruct (Z.le_gt_cases (- max_len) (len s)) as [Hin | Hout].
    - now rewrite Z.min_l by lia.
    - rewrite Z.min_r by lia. unfold len in *.
      rewrite !skipn_all2 by lia. reflexivity. }
  split; [exact Hpad |].
  intros ->. rewrite Hpad. reflexivity.
Qed.

(** X2.  Padding keeps the most recent item in the rightmost position. *)
Theorem pad_sequence_keeps_last (s : list Z) (max_len : Z) :
  0 < max_len -> s <> [] ->
  last (pad_sequence s max_len) 0 = last s 0.
Proof.
  intros Hpos Hne.
  destruct (Z.lt_ge_cases (len s) max_len) as [Hlt | Hge].
  - rewrite pad_sequence_short by assumption.
    now apply last_app_nonempty.
  - rewrite pad_sequence_long by assumption.
    apply last_skipn. unfold len in *. lia.
Qed.

(** X3.  Padding a padded sequence again changes nothing. *)
Theorem pad_sequence_idempotent (s : list Z) (max_len : Z) :
  0 < max_len ->
  pad_sequence (pad_sequence s max_len) max_len = pad_sequence s max_len.
Proof.
  intros Hpos.
  pose proof (pad_sequence_length s max_len Hpos) as Hlen.
  rewrite (pad_sequence_long (pad_sequence s max_len)) by lia.
  replace (length (pad_sequence s max_len) - Z.to_nat max_len)%nat
    with 0%nat by (unfold len in Hlen; lia).
  reflexivity.
Qed.

(** Every item of a padded row is a padding zero or an item of the
    sequence. *)
Lemma in_pad_sequence (s : list Z) (max_len x : Z) :
  In x (pad_sequence s max_len) -> x = 0 \/ In x s.
Proof.
  unfold pad_sequence, slice_from, list_mul.
  destruct (len s >=? max_len); intros Hin.
  - right. rewrite <- (firstn_skipn
                         (Z.to_nat (norm_index (len s) (- max_len))) s).
    apply in_or_app. now right.
  - apply in_app_or in Hin as [Hin | Hin]; [| now right].
    left. now apply repeat_spec in Hin.
Qed.

(** ** More on loading *)

(** What a successful load has read and computed. *)
Lemma load_processed_data_ok (fs : file_system) (dir : string) tr va te n :
  load_processed_data fs dir = Ok (tr, va, te, n) ->
  n <> 0 /\ In n (concat (tr ++ va ++ te)) /\
  forall x, In x (concat (tr ++ va ++ te)) -> x <> 0 -> x <= n.
Proof.
  unfold load_processed_data, open_load.
  destruct (fs (path_join dir "train_seqs.pkl")) as [tr0 |];
    [| discriminate].
  destruct (fs (path_join dir "val_seqs.pkl")) as [va0 |];
    [| discriminate].
  destruct (fs (path_join dir "test_seqs.pkl")) as [te0 |];
    [| discriminate].
  cbn [and_then]. intros H.
  destruct (py_max _) as [m |] eqn:Hmax; cbn [and_then] in H;
    [| discriminate].
  injection H as <- <- <- <-.
  apply py_max_spec in Hmax as [Hin Hub].
  apply all_items_in in Hin as [Hin Hnz].
  split; [assumption | split; [assumption |]].
  intros x Hx Hxnz. apply Hub. now apply all_items_in.
Qed.

(** X18.  When no stored item is negative, the vocabulary size the loader
    returns is at least [1], every item lies in [0 .. num_items], and so
    neither an item nor the padding [0] equals [MASK_ID = num_items + 1]. *)
Theorem load_processed_data_mask_id_fresh
        (fs : file_system) (dir : string) tr va te n :
  load_processed_data fs dir = Ok (tr, va, te, n) ->
  (forall x, In x (concat (tr ++ va ++ te)) -> 0 <= x) ->
  1 <= n /\ n + 1 <> 0 /\
  forall x, In x (concat (tr ++ va ++ te)) -> 0 <= x <= n /\ x <> n + 1.
Proof.
  intros Hload Hnonneg.
  apply load_processed_data_ok in Hload as (Hnz & Hin & Hub).
  pose proof (Hnonneg n Hin) as Hn.
  split; [lia | split; [lia |]].
  intros x Hx. pose proof (Hnonneg x Hx) as H0.
  destruct (Z.eq_dec x 0) as [-> | Hxnz]; [lia |].
  pose proof (Hub x Hx Hxnz). lia.
Qed.

(** X19.  With the three files in place, the loader returns exactly when some
    sequence holds a non-zero item; data made of zeros only, like data with
    no item at all, ends in the [ValueError] of [max]. *)
Theorem load_processed_data_needs_item
        (fs : file_system) (dir : string) tr va te :
  fs (path_join dir "train_seqs.pkl") = Some tr ->
  fs (path_join dir "val_seqs.pkl") = Some va ->
  fs (path_join dir "test_seqs.pkl") = Some te ->
  ((exists n, load_processed_data fs dir = Ok (tr, va, te, n)) <->
   (exists x, In x (concat (tr ++ va ++ te)) /\ x <> 0)) /\
  ((forall x, In x (concat (tr ++ va ++ te)) -> x = 0) ->
   load_processed_data fs dir = Raise ValueError).
Proof.
  intros Htr Hva Hte.
  assert (Hrun : load_processed_data fs dir
                 = and_then
                     (py_max (py_set (filter (fun item => negb (item =? 0))
                                             (concat (tr ++ va ++ te)))))
                     (fun num_items => Ok (tr, va, te, num_items))).
  { unfold load_processed_data, open_load. rewrite Htr, Hva, Hte.
    reflexivity. }
  split.
  - split.
    + intros (n & Hload).
      apply load_processed_data_ok in Hload as (Hnz & Hin & _). eauto.
    + intros (x & Hx & Hnz). rewrite Hrun.
      destruct (py_max _) as [m |] eqn:Hmax; cbn [and_then]; [eauto |].
      exfalso.
      assert (Hin : In x (py_set (filter (fun item => negb (item =? 0))
                                         (concat (tr ++ va ++ te)))))
        by now apply all_items_in.
      destruct (py_set _); [contradiction | discriminate].
  - intros Hzero. rewrite Hrun.
    destruct (py_set _) as [| y ys] eqn:Hset; [reflexivity |].
    exfalso.
    assert (Hin : In y (py_set (filter (fun item => negb (item =? 0))
                                       (concat (tr ++ va ++ te)))))
      by (rewrite Hset; now left).
    apply all_items_in in Hin as [Hin Hnz]. apply Hnz. now apply Hzero.
Qed.

(** ** More on masking *)

Lemma forallb_length_transfer (n : nat) (xs ms : list (list Z)) :
  Forall2 (fun x m => length m = length x) xs ms ->
  forallb (fun r => Nat.eqb (length r) n) ms
  = forallb (fun r => Nat.eqb (length r) n) xs.
Proof.
  induction 1 as [| x m xs ms Hlen _ IH]; [reflexivity |].
  cbn [forallb]. now rewrite Hlen, IH.
Qed.

Lemma rectangular_same_shape (xs ms : list (list Z)) :
  Forall2 (fun x m => length m = length x) xs ms ->
  rectangular ms = rectangular xs.
Proof.
  intros H. destruct H as [| x m xs ms Hlen Hrest]; [reflexivity |].
  destruct x as [| x0 x], m as [| m0 m]; try discriminate; [reflexivity |].
  cbn [rectangular]. rewrite Hlen. now apply forallb_length_transfer.
Qed.

Lemma map_const_same_length {A B C} (c : C) (xs : list A) (ys : list B) :
  length xs = length ys -> map (fun _ => c) xs = map (fun _ => c) ys.
Proof.
  revert ys. induction xs as [| x xs IH]; intros [| y ys] H;
    try discriminate; [reflexivity |].
  cbn [map]. f_equal. apply IH. now injection H.
Qed.

Lemma tensor_rows_empty_head (xs ms : list (list Z)) rest :
  Forall2 (fun x m => length m = length x) xs ms ->
  xs = [] :: rest ->
  rectangular ms = true /\
  tensor_rows ms = map (fun _ : list Z => @nil Z) xs.
Proof.
  intros H ->. inversion H as [| x m xs' ms' Hlen Hrest]; subst.
  destruct m; [| discriminate]. split; [reflexivity |].
  unfold tensor_rows. apply map_const_same_length.
  apply Forall2_length in H. now symmetry.
Qed.

(** X4.  Whatever [seq_len] is, [mask_items] returns only when the padded
    rows have a shape [torch.LongTensor] takes, which every positive
    [seq_len] gives them; and on a batch whose first padded row is empty,
    which needs [seq_len <= 0], it returns two tensors without an element,
    whatever the other rows hold. *)
Theorem mask_items_needs_rectangular seqs num_items mask_prob seq_len w :
  (forall masked_inputs labels w',
      mask_items seqs num_items mask_prob seq_len w
        = (Ok (masked_inputs, labels), w') ->
      rectangular (padded_batch seqs seq_len) = true) /\
  (0 < seq_len -> rectangular (padded_batch seqs seq_len) = true) /\
  (forall rest,
      padded_batch seqs seq_len = [] :: rest ->
      exists w',
        mask_items seqs num_items mask_prob seq_len w
          = (Ok (map (fun _ => []) seqs, map (fun _ => []) seqs), w')).
Proof.
  destruct (mask_rows_run (num_items + 1) mask_prob seq_len seqs w)
    as (ms & ls & g & Hrun & Hok).
  destruct (rows_ok_lengths _ _ _ _ Hok) as [Hm Hl].
  split; [| split].
  - intros masked_inputs labels w' Hret.
    unfold mask_items in Hret. rewrite (bind_ok _ _ _ _ _ Hrun) in Hret.
    apply bind_inv in Hret as (t1 & w1 & Ht1 & _).
    rewrite <- (rectangular_same_shape _ _ Hm).
    unfold LongTensor in Ht1. destruct (rectangular ms);
      [reflexivity | discriminate].
  - intros Hpos.
    exact (rectangular_same_length _ _ (padded_batch_lengths _ _ Hpos)).
  - intros rest Hhead.
    destruct (tensor_rows_empty_head _ _ rest Hm Hhead) as [Hrm Htm].
    destruct (tensor_rows_empty_head _ _ rest Hl Hhead) as [Hrl Htl].
    assert (Hrows : map (fun _ : list Z => @nil Z) (padded_batch seqs seq_len)
                    = map (fun _ : list Z => @nil Z) seqs).
    { apply map_const_same_length. unfold padded_batch. apply length_map. }
    exists (mk_world g (out w)).
    unfold mask_items. rewrite (bind_ok _ _ _ _ _ Hrun).
    unfold LongTensor, bind. rewrite Hrm, Hrl, Htm, Htl, Hrows. reflexivity.
Qed.

Lemma advance_succ (n : nat) (g : Rng) :
  advance (S n) g = advance n (snd (random g)).
Proof. unfold advance. apply Nat.iter_succ_r. Qed.

Lemma advance_add (a b : nat) (g : Rng) :
  advance (a + b) g = advance b (advance a g).
Proof. unfold advance. rewrite Nat.add_comm. apply Nat.iter_add. Qed.

Lemma nonzero_count_app (r1 r2 : list Z) :
  nonzero_count (r1 ++ r2) = (nonzero_count r1 + nonzero_count r2)%nat.
Proof. unfold nonzero_count. now rewrite filter_app, length_app. Qed.

Lemma mask_row_draws MASK_ID mask_prob padded w :
  exists masked label,
    mask_row MASK_ID mask_prob padded w
      = (Ok (masked, label),
         mk_world (advance (nonzero_count padded) (rng w)) (out w)).
Proof.
  revert w. induction padded as [| item rest IH]; intros w.
  - exists [], []. now destruct w.
  - cbn [mask_row]. unfold nonzero_count. cbn [filter].
    destruct (Z.eqb_spec item 0) as [-> | Hnz]; cbn [negb].
    + destruct (IH w) as (ms & ls & Hrun).
      exists (0 :: ms), (0 :: ls).
      rewrite (bind_ok _ _ w false w eq_refl).
      now rewrite (bind_ok _ _ _ _ _ Hrun).
    + cbn [length]. fold (nonzero_count rest). rewrite advance_succ.
      unfold bind at 1. unfold bind at 1. unfold draw.
      destruct (random (rng w)) as [r g1]. unfold ret at 1. cbn [snd].
      destruct (IH (mk_world g1 (out w))) as (ms & ls & Hrun).
      cbn [rng out] in Hrun. rewrite (bind_ok _ _ _ _ _ Hrun).
      destruct (PrimFloat.ltb r mask_prob); unfold ret; eauto.
Qed.

Lemma mask_rows_draws MASK_ID mask_prob seq_len seqs w :
  exists masked_seqs labels,
    mask_rows MASK_ID mask_prob seq_len seqs w
      = (Ok (masked_seqs, labels),
         mk_world (advance (nonzero_count
                              (concat (padded_batch seqs seq_len))) (rng w))
                  (out w)).
Proof.
  revert w. induction seqs as [| seq rest IH]; intros w.
  - exists [], []. now destruct w.
  - cbn [mask_rows padded_batch map concat].
    fold (padded_batch rest seq_len).
    rewrite nonzero_count_app, advance_add.
    destruct (mask_row_draws MASK_ID mask_prob (pad_sequence seq seq_len) w)
      as (m & l & Hrow).
    rewrite (bind_ok _ _ _ _ _ Hrow).
    destruct (IH (mk_world (advance (nonzero_count
                                       (pad_sequence seq seq_len)) (rng w))
                           (out w)))
      as (ms & ls & Hrun).
    cbn [rng out] in Hrun. rewrite (bind_ok _ _ _ _ _ Hrun).
    unfold ret. eauto.
Qed.

(** X5.  Masking a batch calls [random.random()] once for each non-zero item of
    the padded batch and never for a padding position, and it writes
    nothing: whether it returns or raises, the generator is left where that
    many draws leave it. *)
Theorem mask_items_draws seqs num_items mask_prob seq_len w :
  snd (mask_items seqs num_items mask_prob seq_len w)
  = mk_world (advance (nonzero_count
                         (concat (padded_batch seqs seq_len))) (rng w))
             (out w).
Proof.
  destruct (mask_rows_draws (num_items + 1) mask_prob seq_len seqs w)
    as (ms & ls & Hrows).
  unfold mask_items. rewrite (bind_ok _ _ _ _ _ Hrows).
  unfold LongTensor, bind.
  destruct (rectangular ms); [| reflexivity].
  destruct (rectangular ls); reflexivity.
Qed.

Lemma rows_ok_cell_masked MASK_ID xs ms ls :
  rows_ok MASK_ID xs ms ls ->
  forall i j a b,
    cell ms i j = Some a -> cell ls i j = Some b ->
    exists x, cell xs i j = Some x /\ position_ok MASK_ID x a b.
Proof.
  intros Hok i j a b Ha Hb.
  destruct (rows_ok_lengths _ _ _ _ Hok) as [Hm _].
  assert (Hx : exists x, cell xs i j = Some x).
  { unfold cell in *. clear Hb Hok. revert i Ha.
    induction Hm as [| x m xs ms Hlen _ IH]; intros [| i] Ha;
      cbn in *; try discriminate.
    - destruct (nth_error x j) as [v |] eqn:Hv; [eauto |].
      apply nth_error_None in Hv.
      assert (Hsome : nth_error m j <> None) by congruence.
      apply nth_error_Some in Hsome. lia.
    - now apply IH. }
  destruct Hx as (x & Hx). exists x. split; [assumption |].
  destruct (rows_ok_cell _ _ _ _ Hok i j x Hx) as (a' & b' & Ha' & Hb' & Hp).
  congruence.
Qed.

Lemma cell_padded_batch seqs seq_len i j x :
  cell (padded_batch seqs seq_len) i j = Some x ->
  x = 0 \/ exists seq, In seq seqs /\ In x seq.
Proof.
  unfold cell, padded_batch. intros H.
  destruct (nth_error (map (fun seq => pad_sequence seq seq_len) seqs) i)
    as [row |] eqn:Hrow; [| discriminate].
  apply nth_error_In in Hrow. apply in_map_iff in Hrow as (seq & <- & Hseq).
  apply nth_error_In in H. apply in_pad_sequence in H as [-> | Hin];
    [now left | right; eauto].
Qed.

(** X6.  When [MASK_ID = num_items + 1] is neither [0] nor an item of the
    batch, the two tensors [mask_items] returns agree on what was masked: a
    position of [masked_inputs] holds [MASK_ID] exactly when its label is
    not [0]. *)
Theorem mask_items_mask_iff_label seqs num_items mask_prob seq_len w
  masked_inputs labels w' :
  0 < seq_len ->
  num_items + 1 <> 0 ->
  (forall seq x, In seq seqs -> In x seq -> x <> num_items + 1) ->
  mask_items seqs num_items mask_prob seq_len w
    = (Ok (masked_inputs, labels), w') ->
  forall i j a b,
    cell masked_inputs i j = Some a -> cell labels i j = Some b ->
    (a = num_items + 1 <-> b <> 0).
Proof.
  intros Hpos Hmask Hfresh Hret.
  destruct (mask_items_run seqs num_items mask_prob seq_len w Hpos)
    as (ms & ls & g & Hrun & Hok).
  rewrite Hrun in Hret. injection Hret as <- <- _.
  intros i j a b Ha Hb.
  destruct (rows_ok_cell_masked _ _ _ _ Hok i j a b Ha Hb) as (x & Hx & Hp).
  destruct Hp as [(-> & -> & Hnz) | (-> & ->)].
  - split; auto.
  - split; [| intros H; now contradiction H].
    intros Heq. exfalso.
    apply cell_padded_batch in Hx as [-> | (seq & Hseq & Hin)].
    + now apply Hmask.
    + now apply (Hfresh seq x Hseq Hin).
Qed.

(** ** Degenerate batch sizes *)

Lemma range_negative_step (n step : Z) :
  0 <= n -> step < 0 -> range 0 n step = Ok [].
Proof.
  intros Hn Hs. unfold range, range_count.
  destruct (Z.eqb_spec step 0); [lia |].
  destruct (Z.ltb_spec 0 step); [lia |].
  destruct (Z.ltb_spec n 0); [lia |]. reflexivity.
Qed.

Lemma evaluate_val_loss_no_batches m val_data num_items mask_prob seq_len w :
  BATCH_SIZE < 0 -> val_data <> [] ->
  evaluate_val_loss m val_data num_items mask_prob seq_len w
    = (Ok (PrimFloat.div 0%float (float_of_int (len val_data))), w).
Proof.
  intros HB Hne. unfold evaluate_val_loss, bind, lift.
  rewrite range_negative_step by (auto using len_nonneg).
  cbn [val_batches]. unfold ret, truediv.
  destruct (Z.eqb_spec (len val_data) 0) as [Hz | Hz]; [| reflexivity].
  destruct val_data; [contradiction | discriminate].
Qed.


(** ** How a run can end *)

Lemma range_from_one_cons epochs :
  1 <= epochs ->
  exists rest, range 1 (epochs + 1) 1 = Ok (1 :: rest).
Proof.
  intros H. rewrite range_from_one.
  destruct (Z.to_nat epochs) as [| k] eqn:Hk; [lia |].
  cbn [seq map]. eauto.
Qed.

(** An exception in the first epoch is the outcome of the run. *)
Lemma train_model_first_epoch_raises model0 train val num_items mask_prob
      model_name result_name epochs seq_len w e w' :
  1 <= epochs ->
  epoch_body val num_items mask_prob model_name seq_len 1
             (mk_locals model0 train [] 0%float 0 None) w = (Raise e, w') ->
  train_model model0 train val num_items mask_prob model_name result_name
              epochs seq_len w = (Raise e, w').
Proof.
  intros Hep Hbody. unfold train_model.
  destruct (range_from_one_cons epochs Hep) as (rest & Hrange).
  rewrite (bind_ok _ _ w (1 :: rest) w)
    by (unfold lift; now rewrite Hrange).
  cbn [epoch_loop].
  unfold bind at 1. unfold bind at 1. now rewrite Hbody.
Qed.

Lemma shuffle_nil g : fst (shuffle g []) = [].
Proof using shuffle_perm.
  pose proof (shuffle_perm g []) as Hp.
  now apply Permutation_nil in Hp.
Qed.




(** X11.  Called without a [result_name] (its default), [train_model] never
    returns and never writes a history file: when its epochs have run to
    the end of the loop and the results directory could be made, building
    the path at line 139 raises [TypeError], with everything the epochs
    wrote left behind. *)
Theorem train_model_without_result_name
        model0 train val num_items mask_prob model_name epochs seq_len w :
  (exists e,
      fst (train_model model0 train val num_items mask_prob model_name None
                       epochs seq_len w) = Raise e) /\
  (forall p h,
      In (EvDump p h)
         (out (snd (train_model model0 train val num_items mask_prob
                                model_name None epochs seq_len w))) ->
      In (EvDump p h) (out w)) /\
  (forall s w1,
      epoch_loop val num_items mask_prob model_name seq_len
                 (map (fun k => Z.of_nat k + 1) (seq 0 (Z.to_nat epochs)))
                 (mk_locals model0 train [] 0%float 0 None) w
        = (Ok s, w1) ->
      io_error (Makedirs "results") (out w1) = None ->
      train_model model0 train val num_items mask_prob model_name None
                  epochs seq_len w
      = (Raise TypeError, w1)).
Proof.
  unfold train_model.
  rewrite (bind_ok _ _ w _ w (f_equal (fun r => (r, w))
                                      (range_from_one epochs))).
  destruct (epoch_loop val num_items mask_prob model_name seq_len
              (map (fun k => Z.of_nat k + 1) (seq 0 (Z.to_nat epochs)))
              (mk_locals model0 train [] 0%float 0 None) w)
    as [[s | e] w1] eqn:Hloop.
  - rewrite (bind_ok _ _ _ _ _ Hloop).
    assert (Hwritten : forall p h, In (EvDump p h) (out w1) ->
                                   In (EvDump p h) (out w)).
    { intros p h Hin.
      destruct (appends_epoch_loop _ _ _ _ _ _ _ _ _ _ Hloop)
        as (evs & Hout & Hall).
      rewrite Hout in Hin. apply in_app_or in Hin as [Hin | Hin];
        [assumption |].
      rewrite Forall_forall in Hall. destruct (Hall _ Hin). }
    unfold bind, do_io, lift.
    destruct (io_error (Makedirs "results") (out w1)) as [e |] eqn:Hio;
      cbn [fst snd]; (split; [eauto | split; [exact Hwritten |]]).
    + intros s2 w2 Heq Hmk. injection Heq as _ <-. congruence.
    + intros s2 w2 Heq _. now injection Heq as _ <-.
  - rewrite (bind_raise _ _ _ _ _ Hloop). cbn [fst snd].
    split; [eauto | split].
    + intros p h Hin.
      destruct (appends_epoch_loop _ _ _ _ _ _ _ _ _ _ Hloop)
        as (evs & Hout & Hall).
      rewrite Hout in Hin. apply in_app_or in Hin as [Hin | Hin];
        [assumption |].
      rewrite Forall_forall in Hall. destruct (Hall _ Hin).
    + intros s2 w2 Heq. discriminate.
Qed.

(** ** Checkpoints of a named run *)

Lemma checkpoints_cons_epoch e (evs : list (event Model)) :
  checkpoints (EvEpoch e :: evs) = checkpoints evs.
Proof. reflexivity. Qed.

Lemma epoch_loop_checkpoints val_data num_items mask_prob name seq_len
      es s w s' w' :
  truthy (Some name) = true ->
  0 <= patience_counter s ->
  epoch_loop val_data num_items mask_prob (Some name) seq_len es s w
    = (Ok s', w') ->
  exists entries evs states,
    history s' = history s ++ entries /\
    out w' = out w ++ evs /\
    checkpoints evs = map (EvSave (path_join "models" name)) states /\
    length states
    = count_occ Z.eq_dec
        (stall_counters (best_ndcg s) (patience_counter s)
                        (map val_ndcg entries)) 0.
Proof.
  intros Hname. revert s w.
  induction es as [| e rest IH]; intros s w Hc H; cbn [epoch_loop] in H.
  - unfold ret in H. injection H as <- <-.
    exists [], [], []. rewrite !app_nil_r. repeat split; reflexivity.
  - apply bind_inv in H as ([s1 stop] & w1 & Hbody & H).
    apply epoch_body_inv in Hbody
      as (entry & losses & wl & _ & _ & _ & _ & _ & Hhist & Hdec).
    destruct (improved (val_ndcg entry) (best_ndcg s)) eqn:Himp.
    + destruct Hdec as (Hb & Hcnt & -> & Hout).
      apply IH in H as (entries & evs & states & Hh & Ho & Hcp & Hlen);
        [| lia].
      exists (entry :: entries),
             (EvEpoch e :: checkpoint_events (Some name) (model s1) ++ evs),
             (model s1 :: states).
      split; [rewrite Hh, Hhist, <- app_assoc; reflexivity |].
      split; [rewrite Ho, Hout, <- app_assoc; reflexivity |].
      cbn [map stall_counters]. rewrite Himp. split.
      * rewrite checkpoints_cons_epoch, checkpoints_app, Hcp.
        unfold checkpoint_events. rewrite Hname. reflexivity.
      * cbn [length]. rewrite Hlen, Hb, Hcnt.
        rewrite count_occ_cons_eq by reflexivity. reflexivity.
    + destruct Hdec as (Hb & Hcnt & Hstop & Hout).
      assert (Hnz : patience_counter s + 1 <> 0) by lia.
      destruct stop.
      * unfold ret in H. injection H as <- <-.
        exists [entry], [EvEpoch e; EvEarlyStop], [].
        split; [assumption | split; [assumption |]].
        cbn [map stall_counters]. rewrite Himp. split; [reflexivity |].
        rewrite count_occ_cons_neq by assumption. reflexivity.
      * apply IH in H as (entries & evs & states & Hh & Ho & Hcp & Hlen);
          [| lia].
        exists (entry :: entries), (EvEpoch e :: evs), states.
        split; [rewrite Hh, Hhist, <- app_assoc; reflexivity |].
        split; [rewrite Ho, Hout, <- app_assoc; reflexivity |].
        cbn [map stall_counters]. rewrite Himp. split.
        -- now rewrite checkpoints_cons_epoch.
        -- rewrite count_occ_cons_neq by assumption.
           now rewrite Hlen, Hb, Hcnt.
Qed.

(** X14.  In a run with a non-empty [model_name], every checkpoint is written
    to the one path [models/<model_name>], each overwriting the one before,
    and there are as many writes as epochs that improved on the best value
    (the epochs whose stall counter is [0]). *)
Theorem train_model_checkpoints_one_path
        model0 train val num_items mask_prob name result_name
        epochs seq_len w hist w' :
  truthy (Some name) = true ->
  train_model model0 train val num_items mask_prob (Some name) result_name
              epochs seq_len w = (Ok hist, w') ->
  exists evs states,
    out w' = out w ++ evs /\
    checkpoints evs = map (EvSave (path_join "models" name)) states /\
    length states = count_occ Z.eq_dec (history_counters hist) 0.
Proof.
  intros Hname H.
  apply train_model_inv in H as (s & w2 & rname & Hloop & _ & -> & ->).
  apply epoch_loop_checkpoints in Hloop
    as (entries & evs & states & Hhist & Hout & Hcp & Hlen);
    [| assumption | cbn; lia].
  cbn [history app best_ndcg patience_counter] in Hhist, Hlen.
  exists (evs ++ [EvDump (path_join "results" rname) (history s)]), states.
  cbn [out].
  split; [rewrite Hout, <- app_assoc; reflexivity |].
  split.
  - rewrite checkpoints_app, Hcp. cbn. apply app_nil_r.
  - unfold history_counters. now rewrite Hhist.
Qed.

(** ** Early stopping needs [PATIENCE] epochs *)

Lemma stall_counters_bound best counter vals c :
  0 <= counter ->
  In c (stall_counters best counter vals) -> c <= counter + len vals.
Proof.
  revert best counter. induction vals as [| v rest IH];
    intros best counter Hc Hin; cbn [stall_counters] in Hin;
    [contradiction |].
  unfold len in *. cbn [length].
  destruct (improved v best).
  - destruct Hin as [<- | Hin]; [lia |].
    apply IH in Hin; lia.
  - destruct Hin as [<- | Hin]; [lia |].
    apply IH in Hin; lia.
Qed.

(** X15.  A run that returns has gone through at least [min(PATIENCE, epochs)]
    epochs: early stopping cannot cut a run short of [PATIENCE] epochs. *)
Theorem train_model_runs_min_epochs
        model0 train val num_items mask_prob model_name result_name
        epochs seq_len w hist w' :
  1 <= PATIENCE -> 0 <= epochs ->
  train_model model0 train val num_items mask_prob model_name result_name
              epochs seq_len w = (Ok hist, w') ->
  Z.min PATIENCE epochs <= len hist.
Proof.
  intros HP Hep H.
  apply train_model_inv in H as (s & w2 & rname & Hloop & _ & -> & ->).
  apply epoch_loop_patience in Hloop
    as (entries & evs & Hhist & Hout & Hend); [| assumption | cbn; lia].
  cbn [history app best_ndcg patience_counter] in Hhist, Hend.
  rewrite Hhist.
  destruct Hend as [(_ & Hlen & _) | (_ & before & Hcs & _)].
  - unfold len. rewrite Hlen, length_map, length_seq. lia.
  - assert (Hin : In PATIENCE (stall_counters 0%float 0
                                              (map val_ndcg entries)))
      by (rewrite Hcs; apply in_or_app; cbn; auto).
    apply stall_counters_bound in Hin; [| lia].
    unfold len in *. rewrite length_map in Hin. lia.
Qed.

(** ** The training data across a run *)

(** X17.  The epochs only reorder the training data: what the loop leaves in
    [train_data] is a permutation of what it was given. *)
Theorem epoch_loop_permutes_train_data
        val_data num_items mask_prob model_name seq_len es s w s' w' :
  epoch_loop val_data num_items mask_prob model_name seq_len es s w
    = (Ok s', w') ->
  Permutation (train_data s) (train_data s').
Proof using shuffle_perm.
  revert s w. induction es as [| e rest IH]; intros s w H;
    cbn [epoch_loop] in H.
  - unfold ret in H. injection H as <- <-. apply Permutation_refl.
  - apply bind_inv in H as ([s1 stop] & w1 & Hbody & H).
    apply epoch_body_inv in Hbody as (entry & losses & wl & Hdata & _).
    assert (Hp : Permutation (train_data s) (train_data s1))
      by (rewrite Hdata; apply shuffle_perm).
    destruct stop.
    + unfold ret in H. injection H as <- <-. exact Hp.
    + eapply Permutation_trans; [exact Hp | eapply IH; exact H].
Qed.

(** ** The script *)


(** ** A validation metric that is not a number *)

Lemma SFcompare_refl_not_nan (f : spec_float) :
  f <> S754_nan -> SFcompare f f = Some Eq.
Proof.
  destruct f as [s | s | | s m e]; cbn; intros H.
  - reflexivity.
  - now destruct s.
  - contradiction.
  - destruct s; rewrite Z.compare_refl;
      fold (Pos.compare m m); now rewrite Pos.compare_refl.
Qed.

Lemma not_equal_to_itself_nan (v : float) :
  PrimFloat.eqb v v = false -> Prim2SF v = S754_nan.
Proof.
  rewrite eqb_spec. unfold SFeqb. intros H.
  destruct (Prim2SF v) as [sg | sg | | sg mt ex]; try reflexivity;
    rewrite SFcompare_refl_not_nan in H by discriminate; discriminate.
Qed.

Lemma nan_not_improved (v best : float) :
  PrimFloat.eqb v v = false -> improved v best = false.
Proof.
  intros H. apply not_equal_to_itself_nan in H.
  unfold improved, gtb. rewrite ltb_spec, H. unfold SFltb.
  now destruct (Prim2SF (PrimFloat.add best 1e-4%float)).
Qed.

(** X16.  An epoch whose [val_ndcg] is NaN (the one float for which [v == v] is
    false) counts as no improvement: the best value stays, the stall
    counter grows by [1] and no checkpoint is written. *)
Theorem epoch_with_nan_metric_stalls
        val_data num_items mask_prob model_name seq_len e s w s' stop w' :
  epoch_body val_data num_items mask_prob model_name seq_len e s w
    = (Ok (s', stop), w') ->
  exists entry,
    history s' = history s ++ [entry] /\
    (PrimFloat.eqb (val_ndcg entry) (val_ndcg entry) = false ->
     best_ndcg s' = best_ndcg s /\
     patience_counter s' = patience_counter s + 1 /\
     checkpoints (out w') = checkpoints (out w)).
Proof.
  intros H.
  apply epoch_body_inv in H
    as (entry & losses & wl & _ & _ & _ & _ & _ & Hhist & Hdec).
  exists entry. split; [assumption |].
  intros Hnan. rewrite (nan_not_improved _ (best_ndcg s) Hnan) in Hdec.
  destruct Hdec as (Hb & Hc & _ & Hout).
  split; [assumption | split; [assumption |]].
  rewrite Hout, checkpoints_app. destruct stop; cbn; apply app_nil_r.
Qed.

End Train.

(** ** The small instance at work *)

Lemma toy_random_range : forall g, unit_interval (fst (Toy.random g)).
Proof. intros g. split; reflexivity. Qed.

Lemma toy_shuffle_perm :
  forall g l, Permutation l (fst (Toy.shuffle g l)).
Proof. intros g l. apply Permutation_rev. Qed.

Abbreviation toy_mask_items :=
  (mask_items Toy.Rng Toy.random Toy.Model) (only parsing).
Abbreviation toy_evaluate_val_loss :=
  (evaluate_val_loss Toy.Rng Toy.random Toy.Model Toy.BATCH_SIZE
                     Toy.eval_loss) (only parsing).
Abbreviation toy_val_batch_losses :=
  (val_batch_losses Toy.Rng Toy.random Toy.Model Toy.BATCH_SIZE
                    Toy.eval_loss) (only parsing).
Abbreviation toy_train_batch_losses :=
  (train_batch_losses Toy.Rng Toy.random Toy.Model Toy.BATCH_SIZE
                      Toy.train_step) (only parsing).
Abbreviation toy_epoch_body :=
  (epoch_body Toy.Rng Toy.random Toy.shuffle Toy.Model Toy.BATCH_SIZE
              Toy.PATIENCE Toy.eval_loss Toy.train_step Toy.evaluate_model
              Toy.scheduler_step Toy.io_error) (only parsing).
Abbreviation toy_train_model :=
  (train_model Toy.Rng Toy.random Toy.shuffle Toy.Model Toy.BATCH_SIZE
               Toy.PATIENCE Toy.eval_loss Toy.train_step Toy.evaluate_model
               Toy.scheduler_step Toy.io_error) (only parsing).

Lemma mask_items_invariant_witness :
  0 < 5 /\
  toy_mask_items [[1; 2; 3]; [4; 5]; [6]] 6 0.75%float 5 toy_w0
    = (Ok ([[0; 0; 7; 7; 7]; [0; 0; 0; 7; 7]; [0; 0; 0; 0; 7]],
           [[0; 0; 1; 2; 3]; [0; 0; 0; 4; 5]; [0; 0; 0; 0; 6]]),
       mk_world 6%nat []) /\
  Forall2 (fun p m => length m = length p)
          (padded_batch [[1; 2; 3]; [4; 5]; [6]] 5)
          [[0; 0; 7; 7; 7]; [0; 0; 0; 7; 7]; [0; 0; 0; 0; 7]] /\
  Forall2 (fun p l => length l = length p)
          (padded_batch [[1; 2; 3]; [4; 5]; [6]] 5)
          [[0; 0; 1; 2; 3]; [0; 0; 0; 4; 5]; [0; 0; 0; 0; 6]] /\
  forall i j x,
    cell (padded_batch [[1; 2; 3]; [4; 5]; [6]] 5) i j = Some x ->
    exists m l,
      cell [[0; 0; 7; 7; 7]; [0; 0; 0; 7; 7]; [0; 0; 0; 0; 7]] i j = Some m /\
      cell [[0; 0; 1; 2; 3]; [0; 0; 0; 4; 5]; [0; 0; 0; 0; 6]] i j = Some l /\
      position_ok (6 + 1) x m l /\
      (x = 0 -> m = 0 /\ l = 0).
Proof.
  assert (Hpos : 0 < 5) by lia.
  assert (Hrun : toy_mask_items [[1; 2; 3]; [4; 5]; [6]] 6 0.75%float 5 toy_w0
                 = (Ok ([[0; 0; 7; 7; 7]; [0; 0; 0; 7; 7]; [0; 0; 0; 0; 7]],
                        [[0; 0; 1; 2; 3]; [0; 0; 0; 4; 5]; [0; 0; 0; 0; 6]]),
                    mk_world 6%nat []))
    by (vm_compute; reflexivity).
  split; [exact Hpos |]. split; [exact Hrun |].
  exact (mask_items_invariant Toy.Rng Toy.random Toy.Model
           [[1; 2; 3]; [4; 5]; [6]] 6 0.75%float 5 toy_w0 _ _ _ Hpos Hrun).
Defined.

Lemma mask_items_extremes_witness :
  0 < 5 /\
  toy_mask_items [[1; 2; 3]; [4; 5]; [6]] 6 0%float 5 toy_w0
    = (Ok ([[0; 0; 1; 2; 3]; [0; 0; 0; 4; 5]; [0; 0; 0; 0; 6]],
           [[0; 0; 0; 0; 0]; [0; 0; 0; 0; 0]; [0; 0; 0; 0; 0]]),
       mk_world 6%nat []) /\
  ([[0; 0; 1; 2; 3]; [0; 0; 0; 4; 5]; [0; 0; 0; 0; 6]]
     = padded_batch [[1; 2; 3]; [4; 5]; [6]] 5 /\
   [[0; 0; 0; 0; 0]; [0; 0; 0; 0; 0]; [0; 0; 0; 0; 0]]
     = map no_label (padded_batch [[1; 2; 3]; [4; 5]; [6]] 5)) /\
  toy_mask_items [[1; 2; 3]; [4; 5]; [6]] 6 1%float 5 toy_w0
    = (Ok ([[0; 0; 7; 7; 7]; [0; 0; 0; 7; 7]; [0; 0; 0; 0; 7]],
           [[0; 0; 1; 2; 3]; [0; 0; 0; 4; 5]; [0; 0; 0; 0; 6]]),
       mk_world 6%nat []) /\
  ([[0; 0; 7; 7; 7]; [0; 0; 0; 7; 7]; [0; 0; 0; 0; 7]]
     = map (all_masked (6 + 1)) (padded_batch [[1; 2; 3]; [4; 5]; [6]] 5) /\
   [[0; 0; 1; 2; 3]; [0; 0; 0; 4; 5]; [0; 0; 0; 0; 6]]
     = padded_batch [[1; 2; 3]; [4; 5]; [6]] 5).
Proof.
  assert (Hpos : 0 < 5) by lia.
  assert (Hzero : toy_mask_items [[1; 2; 3]; [4; 5]; [6]] 6 0%float 5 toy_w0
                  = (Ok ([[0; 0; 1; 2; 3]; [0; 0; 0; 4; 5]; [0; 0; 0; 0; 6]],
                         [[0; 0; 0; 0; 0]; [0; 0; 0; 0; 0]; [0; 0; 0; 0; 0]]),
                     mk_world 6%nat []))
    by (vm_compute; reflexivity).
  assert (Hone : toy_mask_items [[1; 2; 3]; [4; 5]; [6]] 6 1%float 5 toy_w0
                 = (Ok ([[0; 0; 7; 7; 7]; [0; 0; 0; 7; 7]; [0; 0; 0; 0; 7]],
                        [[0; 0; 1; 2; 3]; [0; 0; 0; 4; 5]; [0; 0; 0; 0; 6]]),
                    mk_world 6%nat []))
    by (vm_compute; reflexivity).
  split; [exact Hpos |].
  split; [exact Hzero |].
  split;
    [exact (proj1 (mask_items_extremes Toy.Rng Toy.random toy_random_range
                     Toy.Model [[1; 2; 3]; [4; 5]; [6]] 6 5 toy_w0 _ _ _ Hpos)
                  Hzero) |].
  split; [exact Hone |].
  exact (proj2 (mask_items_extremes Toy.Rng Toy.random toy_random_range
                  Toy.Model [[1; 2; 3]; [4; 5]; [6]] 6 5 toy_w0 _ _ _ Hpos)
               Hone).
Defined.

(** The scenario of the specification: with [mask_prob = 1] every item of
    [[1,2,3]], [[4,5]], [[6]] padded to length [5] becomes [MASK_ID = 7]
    and the labels are the padded sequences. *)
Example mask_items_scenario :
  fst (toy_mask_items [[1; 2; 3]; [4; 5]; [6]] 6 1%float 5 toy_w0)
  = Ok ([[0; 0; 7; 7; 7]; [0; 0; 0; 7; 7]; [0; 0; 0; 0; 7]],
        [[0; 0; 1; 2; 3]; [0; 0; 0; 4; 5]; [0; 0; 0; 0; 6]]).
Proof. vm_compute. reflexivity. Qed.


(** Two batches of validation data would give a mean over batches of
    [1.5]; the function divides the same sum by the two sequences of one
    batch and returns [0.75]. *)
Example evaluate_val_loss_toy :
  fst (toy_evaluate_val_loss 0 Toy.val_seqs 6 0.5%float 5 toy_w0)
  = Ok 0.75%float.
Proof. vm_compute. reflexivity. Qed.


Lemma checkpoint_iff_improved_and_named_witness :
  toy_epoch_body Toy.val_seqs 6 0.5%float (Some "best.pt"%string) 5 1
                 toy_s0 toy_w0
    = (Ok (toy_s1, false), toy_w1_named) /\
  exists entry,
    history toy_s1 = history toy_s0 ++ [entry] /\
    checkpoints (out toy_w1_named)
      = checkpoints (out toy_w0) ++
        (if improved (val_ndcg entry) (best_ndcg toy_s0)
            && truthy (Some "best.pt"%string)
         then checkpoint_events (Some "best.pt"%string) (model toy_s1)
         else []) /\
    ((exists path, checkpoints (out toy_w1_named)
                   = checkpoints (out toy_w0) ++ [EvSave path (model toy_s1)])
     <->
     improved (val_ndcg entry) (best_ndcg toy_s0) = true /\
     truthy (Some "best.pt"%string) = true) /\
    (improved (val_ndcg entry) (best_ndcg toy_s0) = true ->
       best_ndcg toy_s1 = val_ndcg entry /\ patience_counter toy_s1 = 0) /\
    (improved (val_ndcg entry) (best_ndcg toy_s0) = false ->
       checkpoints (out toy_w1_named) = checkpoints (out toy_w0) /\
       best_ndcg toy_s1 = best_ndcg toy_s0 /\
       patience_counter toy_s1 = patience_counter toy_s0 + 1).
Proof.
  assert (Hrun : toy_epoch_body Toy.val_seqs 6 0.5%float
                   (Some "best.pt"%string) 5 1 toy_s0 toy_w0
                 = (Ok (toy_s1, false), toy_w1_named))
    by (vm_compute; reflexivity).
  split; [exact Hrun |].
  exact (checkpoint_iff_improved_and_named
           Toy.Rng Toy.random Toy.shuffle Toy.Model Toy.BATCH_SIZE
           Toy.PATIENCE Toy.eval_loss Toy.train_step Toy.evaluate_model
           Toy.scheduler_step Toy.io_error Toy.val_seqs 6 0.5%float
           (Some "best.pt"%string) 5 1 toy_s0 toy_w0 toy_s1 false
           toy_w1_named Hrun).
Defined.

(** C3 as stated fails when no [model_name] is given: the first epoch of
    the instance has [val_ndcg = 0.5 > 0.0 + 1e-4], it sets the best value
    and resets the counter, and the only thing it writes is its progress
    bar. *)
Lemma checkpoint_not_written_without_name :
  toy_epoch_body Toy.val_seqs 6 0.5%float None 5 1 toy_s0 toy_w0
    = (Ok (toy_s1, false), mk_world 14%nat [EvEpoch 1]) /\
  history toy_s1 = history toy_s0 ++ [toy_entry 1] /\
  gtb (val_ndcg (toy_entry 1))
      (PrimFloat.add (best_ndcg toy_s0) 1e-4%float) = true /\
  best_ndcg toy_s1 = val_ndcg (toy_entry 1) /\
  patience_counter toy_s1 = 0 /\
  checkpoints (out (mk_world (Model := Toy.Model) 14%nat [EvEpoch 1])) = [].
Proof. repeat split; vm_compute; reflexivity. Qed.

Abbreviation toy_main :=
  (main Toy.Rng Toy.random Toy.shuffle Toy.Model Toy.BATCH_SIZE Toy.PATIENCE
        Toy.eval_loss Toy.train_step Toy.evaluate_model Toy.scheduler_step
        Toy.io_error
        Toy.MASK_PROB Toy.EPOCHS Toy.PROCESSED_DIR Toy.BERT4Rec)
  (only parsing).

Lemma no_checkpoint_without_model_name_witness :
  checkpoints
    (out (snd (toy_train_model 0 Toy.train_seqs Toy.val_seqs 6 0.5%float
                               None (Some "config_1.json"%string) 5 5
                               toy_w0)))
  = checkpoints (out toy_w0) /\
  checkpoints (out (snd (toy_main Toy.fs toy_w0))) = checkpoints (out toy_w0) /\
  toy_epoch_body Toy.val_seqs 6 0.5%float None 5 1 toy_s0 toy_w0
    = (Ok (toy_s1, false), mk_world 14%nat [EvEpoch 1]) /\
  exists entry,
    history toy_s1 = history toy_s0 ++ [entry] /\
    checkpoints (out (mk_world (Model := Toy.Model) 14%nat [EvEpoch 1]))
      = checkpoints (out toy_w0) /\
    (improved (val_ndcg entry) (best_ndcg toy_s0) = true ->
       best_ndcg toy_s1 = val_ndcg entry /\ patience_counter toy_s1 = 0) /\
    (improved (val_ndcg entry) (best_ndcg toy_s0) = false ->
       best_ndcg toy_s1 = best_ndcg toy_s0 /\
       patience_counter toy_s1 = patience_counter toy_s0 + 1).
Proof.
  destruct (no_checkpoint_without_model_name
              Toy.Rng Toy.random Toy.shuffle Toy.Model Toy.BATCH_SIZE
              Toy.PATIENCE Toy.eval_loss Toy.train_step Toy.evaluate_model
              Toy.scheduler_step Toy.io_error
              Toy.MASK_PROB Toy.EPOCHS Toy.PROCESSED_DIR
              Toy.BERT4Rec)
    as (Hrun & Hmain & Hepoch).
  assert (Hbody : toy_epoch_body Toy.val_seqs 6 0.5%float None 5 1
                                 toy_s0 toy_w0
                  = (Ok (toy_s1, false), mk_world 14%nat [EvEpoch 1]))
    by (vm_compute; reflexivity).
  split; [apply Hrun |].
  split; [apply Hmain |].
  split; [exact Hbody |].
  exact (Hepoch Toy.val_seqs 6 0.5%float 5 1 toy_s0 toy_w0 toy_s1 false
                (mk_world 14%nat [EvEpoch 1]) Hbody).
Defined.

Lemma toy_run :
  toy_train_model 0 Toy.train_seqs Toy.val_seqs 6 0.5%float
                  (Some "best.pt"%string) (Some "config_1.json"%string)
                  5 5 toy_w0
  = (Ok toy_history, mk_world 42%nat toy_events).
Proof. vm_compute. reflexivity. Qed.

Lemma history_one_record_per_epoch_witness :
  0 <= 5 /\
  exists evs path,
    out (mk_world (Rng := Toy.Rng) 42%nat toy_events)
      = out toy_w0 ++ evs ++ [EvDump path toy_history] /\
    (forall p h, ~ In (EvDump p h) evs) /\
    len toy_history = len (epochs_run evs) /\
    len toy_history <= 5 /\
    (forall i entry,
        nth_error toy_history i = Some entry -> epoch entry = Z.of_nat i + 1).
Proof.
  split; [lia |].
  apply (history_one_record_per_epoch
           Toy.Rng Toy.random Toy.shuffle Toy.Model Toy.BATCH_SIZE
           Toy.PATIENCE Toy.eval_loss Toy.train_step Toy.evaluate_model
           Toy.scheduler_step Toy.io_error
           0 Toy.train_seqs Toy.val_seqs 6 0.5%float
           (Some "best.pt"%string) (Some "config_1.json"%string) 5 5
           toy_w0 toy_history (mk_world 42%nat toy_events)).
  - lia.
  - exact toy_run.
Defined.

Lemma early_stop_exactly_at_patience_witness :
  1 <= Toy.PATIENCE /\
  exists evs,
    out (mk_world (Rng := Toy.Rng) 42%nat toy_events) = out toy_w0 ++ evs /\
    (In EvEarlyStop evs <-> In Toy.PATIENCE (history_counters toy_history)) /\
    (forall i c,
        nth_error (history_counters toy_history) i = Some c ->
        c <= Toy.PATIENCE /\
        (c = Toy.PATIENCE -> S i = length toy_history)) /\
    (~ In EvEarlyStop evs -> length toy_history = Z.to_nat 5).
Proof.
  assert (Hp : 1 <= Toy.PATIENCE) by (unfold Toy.PATIENCE; lia).
  split; [exact Hp |].
  exact (early_stop_exactly_at_patience
           Toy.Rng Toy.random Toy.shuffle Toy.Model Toy.BATCH_SIZE
           Toy.PATIENCE Toy.eval_loss Toy.train_step Toy.evaluate_model
           Toy.scheduler_step Toy.io_error
           0 Toy.train_seqs Toy.val_seqs 6 0.5%float
           (Some "best.pt"%string) (Some "config_1.json"%string) 5 5
           toy_w0 toy_history (mk_world 42%nat toy_events) Hp toy_run).
Defined.

(** C4 as stated fails for a patience of [0]: the first epoch of the
    instance improves and leaves the stall counter at [0], the configured
    patience, and training goes on; the second epoch does not improve and
    stops the run with the counter at [1]. *)
Lemma early_stop_with_zero_patience :
  train_model Toy.Rng Toy.random Toy.shuffle Toy.Model Toy.BATCH_SIZE 0
              Toy.eval_loss Toy.train_step Toy.evaluate_model
              Toy.scheduler_step Toy.io_error
              0 Toy.train_seqs Toy.val_seqs 6 0.5%float
              (Some "best.pt"%string) (Some "config_1.json"%string)
              5 5 toy_w0
  = (Ok toy_history_impatient, mk_world 28%nat toy_events_impatient) /\
  history_counters toy_history_impatient = [0; 1] /\
  In EvEarlyStop toy_events_impatient /\
  nth_error (history_counters toy_history_impatient) 0 = Some 0 /\
  (1 < length toy_history_impatient)%nat /\
  nth_error (history_counters toy_history_impatient) 1 = Some 1.
Proof.
  split; [vm_compute; reflexivity |].
  split; [vm_compute; reflexivity |].
  split; [cbn; auto 6 |].
  split; [vm_compute; reflexivity |].
  split; [cbn; lia |].
  vm_compute; reflexivity.
Qed.

(** The stall counter of that run: reset by the first epoch, then [1] and
    [2 = PATIENCE] in the epoch that stops it. *)
Example toy_history_counters : history_counters toy_history = [0; 1; 2].
Proof. vm_compute. reflexivity. Qed.

Lemma load_processed_data_spec_witness :
  load_processed_data Toy.fs "data"
    = Ok (Toy.train_seqs, Toy.val_seqs, Toy.test_seqs, 6) /\
  (6 <> 0 /\
   In 6 (concat (Toy.train_seqs ++ Toy.val_seqs ++ Toy.test_seqs)) /\
   forall x,
     In x (concat (Toy.train_seqs ++ Toy.val_seqs ++ Toy.test_seqs)) ->
     x <> 0 -> x <= 6) /\
  (Toy.fs (path_join "dat" "val_seqs.pkl") = None /\
   load_processed_data Toy.fs "dat" = Raise FileNotFoundError /\
   DataError FileNotFoundError) /\
  ((forall s : list Z, In s ([[]; []] ++ [[]] ++ []) -> s = []) /\
   load_processed_data Toy.fs_empty "data" = Raise ValueError /\
   DataError ValueError).
Proof.
  assert (Hload : load_processed_data Toy.fs "data"
                  = Ok (Toy.train_seqs, Toy.val_seqs, Toy.test_seqs, 6))
    by (vm_compute; reflexivity).
  assert (Hmiss : Toy.fs (path_join "dat" "val_seqs.pkl") = None)
    by (vm_compute; reflexivity).
  assert (Hemp : forall s : list Z, In s ([[]; []] ++ [[]] ++ []) -> s = []).
  { intros s [H | [H | [H | []]]]; now symmetry. }
  split; [exact Hload |].
  split.
  - destruct (load_processed_data_spec Toy.fs "data") as (Hok & _).
    destruct (Hok _ _ _ _ Hload) as (_ & _ & _ & H). exact H.
  - split.
    + destruct (load_processed_data_spec Toy.fs "dat") as (_ & _ & Hm & _).
      split; [exact Hmiss |]. apply Hm. right. left. exact Hmiss.
    + destruct (load_processed_data_spec Toy.fs_empty "data")
        as (_ & _ & _ & He).
      split; [exact Hemp |].
      apply (He [[]; []] [[]] []); try reflexivity. exact Hemp.
Defined.

(** ** Further examples on the small instance *)

Lemma pad_sequence_nonpositive_witness :
  -2 <= 0 /\
  pad_sequence [1; 2; 3; 4; 5] (-2) = skipn (Z.to_nat (- -2)) [1; 2; 3; 4; 5] /\
  (-2 = 0 -> pad_sequence [1; 2; 3; 4; 5] (-2) = [1; 2; 3; 4; 5]).
Proof.
  split; [lia |]. apply (pad_sequence_nonpositive [1; 2; 3; 4; 5] (-2)). lia.
Defined.

Lemma pad_sequence_keeps_last_witness :
  0 < 2 /\ [1; 2; 3] <> [] /\
  last (pad_sequence [1; 2; 3] 2) 0 = last [1; 2; 3] 0.
Proof.
  assert (Hne : [1; 2; 3] <> (@nil Z)) by discriminate.
  split; [lia | split; [exact Hne |]].
  exact (pad_sequence_keeps_last [1; 2; 3] 2 eq_refl Hne).
Defined.

Lemma pad_sequence_idempotent_witness :
  0 < 5 /\
  pad_sequence (pad_sequence [1; 2; 3] 5) 5 = pad_sequence [1; 2; 3] 5.
Proof.
  split; [lia |]. apply (pad_sequence_idempotent [1; 2; 3] 5). lia.
Defined.

Lemma toy_load :
  load_processed_data Toy.fs "data"
  = Ok (Toy.train_seqs, Toy.val_seqs, Toy.test_seqs, 6).
Proof. vm_compute. reflexivity. Qed.

Lemma toy_items_nonnegative :
  forall x,
    In x (concat (Toy.train_seqs ++ Toy.val_seqs ++ Toy.test_seqs)) -> 0 <= x.
Proof.
  intros x Hin. cbn in Hin.
  repeat (destruct Hin as [<- | Hin]; [lia |]). contradiction.
Qed.

Lemma load_processed_data_mask_id_fresh_witness :
  load_processed_data Toy.fs "data"
    = Ok (Toy.train_seqs, Toy.val_seqs, Toy.test_seqs, 6) /\
  (forall x,
      In x (concat (Toy.train_seqs ++ Toy.val_seqs ++ Toy.test_seqs)) ->
      0 <= x) /\
  1 <= 6 /\ 6 + 1 <> 0 /\
  forall x,
    In x (concat (Toy.train_seqs ++ Toy.val_seqs ++ Toy.test_seqs)) ->
    0 <= x <= 6 /\ x <> 6 + 1.
Proof.
  split; [exact toy_load | split; [exact toy_items_nonnegative |]].
  exact (load_processed_data_mask_id_fresh Toy.fs "data" Toy.train_seqs
           Toy.val_seqs Toy.test_seqs 6 toy_load toy_items_nonnegative).
Defined.

(** The same directory with three files that hold only zeros. *)
Lemma load_processed_data_needs_item_witness :
  Toy.fs_empty (path_join "data" "train_seqs.pkl") = Some [[]; []] /\
  Toy.fs_empty (path_join "data" "val_seqs.pkl") = Some [[]] /\
  Toy.fs_empty (path_join "data" "test_seqs.pkl") = Some [] /\
  ((exists n, load_processed_data Toy.fs_empty "data"
              = Ok ([[]; []], [[]], [], n)) <->
   (exists x, In x (concat ([[]; []] ++ [[]] ++ [])) /\ x <> 0)) /\
  ((forall x : Z, In x (concat ([[]; []] ++ [[]] ++ [])) -> x = 0) ->
   load_processed_data Toy.fs_empty "data" = Raise ValueError).
Proof.
  assert (H1 : Toy.fs_empty (path_join "data" "train_seqs.pkl")
               = Some [[]; []]) by reflexivity.
  assert (H2 : Toy.fs_empty (path_join "data" "val_seqs.pkl")
               = Some [[]]) by reflexivity.
  assert (H3 : Toy.fs_empty (path_join "data" "test_seqs.pkl")
               = Some []) by reflexivity.
  split; [exact H1 | split; [exact H2 | split; [exact H3 |]]].
  exact (load_processed_data_needs_item Toy.fs_empty "data"
           [[]; []] [[]] [] H1 H2 H3).
Defined.

Lemma mask_items_needs_rectangular_witness :
  (toy_mask_items [[1; 2; 3]; [4; 5]; [6]] 6 0.25%float 5 toy_w0
     = (Ok ([[0; 0; 1; 2; 3]; [0; 0; 0; 4; 5]; [0; 0; 0; 0; 6]],
            [[0; 0; 0; 0; 0]; [0; 0; 0; 0; 0]; [0; 0; 0; 0; 0]]),
        mk_world 6%nat []) /\
   rectangular (padded_batch [[1; 2; 3]; [4; 5]; [6]] 5) = true) /\
  (0 < 5 /\ rectangular (padded_batch [[1; 2; 3]; [4; 5]; [6]] 5) = true) /\
  (padded_batch [[]; [1]; [2; 3]] 0 = [] :: [[1]; [2; 3]] /\
   exists w',
     toy_mask_items [[]; [1]; [2; 3]] 6 0.25%float 0 toy_w0
       = (Ok (map (fun _ => []) [[]; [1]; [2; 3]],
              map (fun _ => []) [[]; [1]; [2; 3]]), w')).
Proof.
  assert (Hpos : 0 < 5) by lia.
  assert (Hrun : toy_mask_items [[1; 2; 3]; [4; 5]; [6]] 6 0.25%float 5 toy_w0
                 = (Ok ([[0; 0; 1; 2; 3]; [0; 0; 0; 4; 5]; [0; 0; 0; 0; 6]],
                        [[0; 0; 0; 0; 0]; [0; 0; 0; 0; 0]; [0; 0; 0; 0; 0]]),
                    mk_world 6%nat []))
    by (vm_compute; reflexivity).
  assert (Hhead : padded_batch [[]; [1]; [2; 3]] 0 = [] :: [[1]; [2; 3]])
    by reflexivity.
  destruct (mask_items_needs_rectangular Toy.Rng Toy.random Toy.Model
              [[1; 2; 3]; [4; 5]; [6]] 6 0.25%float 5 toy_w0)
    as (Hret & Hpositive & _).
  destruct (mask_items_needs_rectangular Toy.Rng Toy.random Toy.Model
              [[]; [1]; [2; 3]] 6 0.25%float 0 toy_w0)
    as (_ & _ & Hempty).
  split; [split; [exact Hrun | exact (Hret _ _ _ Hrun)] |].
  split; [split; [exact Hpos | exact (Hpositive Hpos)] |].
  split; [exact Hhead | exact (Hempty _ Hhead)].
Defined.

(** A batch of three lengths under [seq_len = 0], which pads nothing, cannot
    be made a tensor. *)
Example mask_items_ragged :
  toy_mask_items [[1; 2; 3]; [4; 5]; [6]] 6 0.25%float 0 toy_w0
  = (Raise ValueError, mk_world 6%nat []).
Proof. vm_compute. reflexivity. Qed.

Lemma mask_items_draws_witness :
  snd (toy_mask_items [[1; 2; 3]; [4; 5]; [6]] 6 0.25%float 5 toy_w0)
    = mk_world
        (advance Toy.Rng Toy.random
           (nonzero_count
              (concat (padded_batch [[1; 2; 3]; [4; 5]; [6]] 5)))
           (rng toy_w0))
        (out toy_w0) /\
  snd (toy_mask_items [[1; 2; 3]; [4; 5]; [6]] 6 0.25%float 0 toy_w0)
    = mk_world
        (advance Toy.Rng Toy.random
           (nonzero_count
              (concat (padded_batch [[1; 2; 3]; [4; 5]; [6]] 0)))
           (rng toy_w0))
        (out toy_w0).
Proof.
  split.
  - exact (mask_items_draws Toy.Rng Toy.random Toy.Model
             [[1; 2; 3]; [4; 5]; [6]] 6 0.25%float 5 toy_w0).
  - exact (mask_items_draws Toy.Rng Toy.random Toy.Model
             [[1; 2; 3]; [4; 5]; [6]] 6 0.25%float 0 toy_w0).
Defined.

(** Fifteen padded positions, six items, six draws. *)
Example mask_items_draws_toy :
  nonzero_count (concat (padded_batch [[1; 2; 3]; [4; 5]; [6]] 5)) = 6%nat /\
  advance Toy.Rng Toy.random 6 (rng toy_w0) = 6%nat.
Proof. split; reflexivity. Qed.

Lemma toy_batch_fresh :
  forall seq x,
    In seq [[1; 2; 3]; [4; 5]; [6]] -> In x seq -> x <> 6 + 1.
Proof.
  intros seq x Hseq Hx. cbn in Hseq.
  repeat (destruct Hseq as [<- | Hseq];
          [cbn in Hx; repeat (destruct Hx as [<- | Hx]; [lia |]);
           contradiction |]).
  contradiction.
Qed.

Lemma mask_items_mask_iff_label_witness :
  0 < 5 /\ 6 + 1 <> 0 /\
  (forall seq x,
      In seq [[1; 2; 3]; [4; 5]; [6]] -> In x seq -> x <> 6 + 1) /\
  toy_mask_items [[1; 2; 3]; [4; 5]; [6]] 6 0.75%float 5 toy_w0
    = (Ok ([[0; 0; 7; 7; 7]; [0; 0; 0; 7; 7]; [0; 0; 0; 0; 7]],
           [[0; 0; 1; 2; 3]; [0; 0; 0; 4; 5]; [0; 0; 0; 0; 6]]),
       mk_world 6%nat []) /\
  forall i j a b,
    cell [[0; 0; 7; 7; 7]; [0; 0; 0; 7; 7]; [0; 0; 0; 0; 7]] i j = Some a ->
    cell [[0; 0; 1; 2; 3]; [0; 0; 0; 4; 5]; [0; 0; 0; 0; 6]] i j = Some b ->
    (a = 6 + 1 <-> b <> 0).
Proof.
  assert (Hpos : 0 < 5) by lia.
  assert (Hm : 6 + 1 <> 0) by lia.
  assert (Hrun : toy_mask_items [[1; 2; 3]; [4; 5]; [6]] 6 0.75%float 5 toy_w0
                 = (Ok ([[0; 0; 7; 7; 7]; [0; 0; 0; 7; 7]; [0; 0; 0; 0; 7]],
                        [[0; 0; 1; 2; 3]; [0; 0; 0; 4; 5]; [0; 0; 0; 0; 6]]),
                    mk_world 6%nat []))
    by (vm_compute; reflexivity).
  split; [exact Hpos | split; [exact Hm | split; [exact toy_batch_fresh |]]].
  split; [exact Hrun |].
  exact (mask_items_mask_iff_label Toy.Rng Toy.random Toy.Model
           [[1; 2; 3]; [4; 5]; [6]] 6 0.75%float 5 toy_w0 _ _ _
           Hpos Hm toy_batch_fresh Hrun).
Defined.

(** Without the freshness of [MASK_ID] the two tensors can disagree: an
    item [7] under [num_items = 6] that is not masked reads as a mask and
    has label [0]. *)
Example mask_id_collision :
  fst (toy_mask_items [[1; 7; 3]] 6 0.25%float 3 toy_w0)
  = Ok ([[1; 7; 3]], [[0; 0; 0]]).
Proof. vm_compute. reflexivity. Qed.

Lemma batches_partition_witness :
  0 < 2 /\
  concat (map (fun i => slice Toy.train_seqs i (i + 2))
              (batch_offsets 2 Toy.train_seqs))
  = Toy.train_seqs.
Proof.
  split; [lia |]. apply (batches_partition 2 Toy.train_seqs). lia.
Defined.





Lemma toy_loop :
  epoch_loop Toy.Rng Toy.random Toy.shuffle Toy.Model Toy.BATCH_SIZE
             Toy.PATIENCE Toy.eval_loss Toy.train_step Toy.evaluate_model
             Toy.scheduler_step Toy.io_error
             Toy.val_seqs 6 0.5%float (Some "best.pt"%string) 5
             (map (fun k => Z.of_nat k + 1) (seq 0 (Z.to_nat 5)))
             (mk_locals 0 Toy.train_seqs [] 0%float 0 None) toy_w0
  = (Ok toy_s3, mk_world 42%nat toy_loop_events).
Proof. vm_compute. reflexivity. Qed.

Lemma train_model_without_result_name_witness :
  (exists e,
      fst (toy_train_model 0 Toy.train_seqs Toy.val_seqs 6 0.5%float
                           (Some "best.pt"%string) None 5 5 toy_w0)
      = Raise e) /\
  (forall p h,
      In (EvDump p h)
         (out (snd (toy_train_model 0 Toy.train_seqs Toy.val_seqs 6
                                    0.5%float (Some "best.pt"%string) None
                                    5 5 toy_w0))) ->
      In (EvDump p h) (out toy_w0)) /\
  toy_train_model 0 Toy.train_seqs Toy.val_seqs 6 0.5%float
                  (Some "best.pt"%string) None 5 5 toy_w0
  = (Raise TypeError, mk_world 42%nat toy_loop_events).
Proof.
  destruct (train_model_without_result_name
              Toy.Rng Toy.random Toy.shuffle Toy.Model
              Toy.BATCH_SIZE Toy.PATIENCE Toy.eval_loss Toy.train_step
              Toy.evaluate_model Toy.scheduler_step Toy.io_error 0
              Toy.train_seqs Toy.val_seqs 6 0.5%float
              (Some "best.pt"%string) 5 5 toy_w0)
    as (Hraise & Hdump & Htype).
  split; [exact Hraise | split; [exact Hdump |]].
  exact (Htype toy_s3 (mk_world 42%nat toy_loop_events) toy_loop eq_refl).
Defined.

(** A file system with no room left after the checkpoint: the run of the
    instance trains, saves its checkpoint, stops early, and fails on the
    history file. *)
Example toy_run_disk_full :
  train_model Toy.Rng Toy.random Toy.shuffle Toy.Model Toy.BATCH_SIZE
              Toy.PATIENCE Toy.eval_loss Toy.train_step Toy.evaluate_model
              Toy.scheduler_step Toy.io_error_full
              0 Toy.train_seqs Toy.val_seqs 6 0.5%float
              (Some "best.pt"%string) (Some "config_1.json"%string) 5 5
              toy_w0
  = (Raise OSError, mk_world 42%nat toy_loop_events).
Proof. vm_compute. reflexivity. Qed.


Lemma train_model_checkpoints_one_path_witness :
  truthy (Some "best.pt"%string) = true /\
  exists evs states,
    out (mk_world (Rng := Toy.Rng) 42%nat toy_events) = out toy_w0 ++ evs /\
    checkpoints evs = map (EvSave (path_join "models" "best.pt")) states /\
    length states = count_occ Z.eq_dec (history_counters toy_history) 0.
Proof.
  split; [reflexivity |].
  exact (train_model_checkpoints_one_path
           Toy.Rng Toy.random Toy.shuffle Toy.Model Toy.BATCH_SIZE
           Toy.PATIENCE Toy.eval_loss Toy.train_step Toy.evaluate_model
           Toy.scheduler_step Toy.io_error
           0 Toy.train_seqs Toy.val_seqs 6 0.5%float
           "best.pt"%string (Some "config_1.json"%string) 5 5
           toy_w0 toy_history (mk_world 42%nat toy_events) eq_refl toy_run).
Defined.

Lemma train_model_runs_min_epochs_witness :
  1 <= Toy.PATIENCE /\ 0 <= 5 /\
  Z.min Toy.PATIENCE 5 <= len toy_history.
Proof.
  assert (Hp : 1 <= Toy.PATIENCE) by (unfold Toy.PATIENCE; lia).
  assert (He : 0 <= 5) by lia.
  split; [exact Hp | split; [exact He |]].
  exact (train_model_runs_min_epochs
           Toy.Rng Toy.random Toy.shuffle Toy.Model Toy.BATCH_SIZE
           Toy.PATIENCE Toy.eval_loss Toy.train_step Toy.evaluate_model
           Toy.scheduler_step Toy.io_error
           0 Toy.train_seqs Toy.val_seqs 6 0.5%float
           (Some "best.pt"%string) (Some "config_1.json"%string) 5 5
           toy_w0 toy_history (mk_world 42%nat toy_events) Hp He toy_run).
Defined.

Lemma toy_two_epochs :
  epoch_loop Toy.Rng Toy.random Toy.shuffle Toy.Model Toy.BATCH_SIZE
             Toy.PATIENCE Toy.eval_loss Toy.train_step Toy.evaluate_model
             Toy.scheduler_step Toy.io_error
             Toy.val_seqs 6 0.5%float None 5 [1; 2]
             toy_s0 toy_w0
  = (Ok toy_s2, mk_world 28%nat [EvEpoch 1; EvEpoch 2]).
Proof. vm_compute. reflexivity. Qed.

Lemma epoch_loop_permutes_train_data_witness :
  Permutation (train_data toy_s0) (train_data toy_s2).
Proof.
  exact (epoch_loop_permutes_train_data
           Toy.Rng Toy.random Toy.shuffle toy_shuffle_perm Toy.Model
           Toy.BATCH_SIZE Toy.PATIENCE Toy.eval_loss Toy.train_step
           Toy.evaluate_model Toy.scheduler_step Toy.io_error
           Toy.val_seqs 6 0.5%float
           None 5 [1; 2] toy_s0 toy_w0 toy_s2
           (mk_world 28%nat [EvEpoch 1; EvEpoch 2]) toy_two_epochs).
Defined.

Lemma toy_main_run :
  toy_main Toy.fs toy_w0
  = (Ok toy_history,
     mk_world 42%nat
       [EvEpoch 1; EvEpoch 2; EvEpoch 3; EvEarlyStop;
        EvDump "results/config_1.json" toy_history]).
Proof. vm_compute. reflexivity. Qed.


Lemma toy_nan_epoch :
  epoch_body Toy.Rng Toy.random Toy.shuffle Toy.Model Toy.BATCH_SIZE
             Toy.PATIENCE Toy.eval_loss Toy.train_step
             Toy.evaluate_model_nan Toy.scheduler_step Toy.io_error
             Toy.val_seqs 6
             0.5%float (Some "best.pt"%string) 5 1 toy_s0 toy_w0
  = (Ok (toy_s1_nan, false), mk_world 14%nat [EvEpoch 1]).
Proof. vm_compute. reflexivity. Qed.

Lemma epoch_with_nan_metric_stalls_witness :
  PrimFloat.eqb (val_ndcg toy_nan_entry) (val_ndcg toy_nan_entry) = false /\
  best_ndcg toy_s1_nan = best_ndcg toy_s0 /\
  patience_counter toy_s1_nan = patience_counter toy_s0 + 1 /\
  checkpoints (out (mk_world (Rng := Toy.Rng) (Model := Toy.Model)
                             14%nat [EvEpoch 1]))
    = checkpoints (out toy_w0).
Proof.
  destruct (epoch_with_nan_metric_stalls
              Toy.Rng Toy.random Toy.shuffle Toy.Model Toy.BATCH_SIZE
              Toy.PATIENCE Toy.eval_loss Toy.train_step
              Toy.evaluate_model_nan Toy.scheduler_step Toy.io_error
              Toy.val_seqs 6
              0.5%float (Some "best.pt"%string) 5 1 toy_s0 toy_w0
              toy_s1_nan false (mk_world 14%nat [EvEpoch 1]) toy_nan_epoch)
    as (entry & Hhist & Hstall).
  cbn in Hhist. injection Hhist as <-.
  split; [reflexivity | apply Hstall; reflexivity].
Defined.
